(** * pyyogrt: the environment discovery of [generate_bindings.py]

    A shallow embedding of the discovery procedure that locates [yogrt.h]
    and [libyogrt.so] on a host, and the properties it satisfies.

    - Python [str] values are [string]s; a character stands for a code
      point below 256.
    - Python [set[str]] values are [gset string]; a [for] loop over a set
      visits it in an order chosen by the host ([iter]).
    - Exceptions are explicit: a computation that may raise returns a
      [result].
    - The process environment, the executable search path, child processes
      and the file system are the fields of a [host] record, read but never
      written. *)

From Stdlib Require Import Ascii.
From stdpp Require Import gmap strings list sets fin_maps.

Set Warnings "-clear-no-such-hyp".

Local Open Scope Z_scope.
Local Open Scope stdpp_scope.

(** ** Exceptions *)

Inductive exn : Type :=
| CalledProcessError (returncode : Z)
| FileNotFoundError
| NotADirectoryError
| PermissionError
| ValueError
| UnicodeDecodeError
| IndexError
| RuntimeError (msg : string).

Inductive result (A : Type) : Type :=
| Ok (a : A)
| Raise (e : exn).
Arguments Ok {A} a.
Arguments Raise {A} e.

Global Instance result_ret : MRet result := λ A a, Ok a.
Global Instance result_bind : MBind result := λ A B f m,
  match m with
  | Ok a => f a
  | Raise e => Raise e
  end.

Definition raises {A} (m : result A) : Prop := ∃ e, m = Raise e.
Definition returns {A} (m : result A) : Prop := ∃ a, m = Ok a.

Definition is_CalledProcessError (e : exn) : bool :=
  match e with CalledProcessError _ => true | _ => false end.
Definition is_FileNotFoundError (e : exn) : bool :=
  match e with FileNotFoundError => true | _ => false end.

(** [try: m  except <class>: handler] *)
Definition try_except {A} (m : result A) (caught : exn → bool)
    (handler : result A) : result A :=
  match m with
  | Ok a => Ok a
  | Raise e => if caught e then handler else Raise e
  end.

(** ** Python strings *)

Module Str.

(** Truth value of a string: [if s:]. *)
Definition truthy (s : string) : bool :=
  match s with "" => false | String _ _ => true end.

(** Truth value of [str | None]. *)
Definition truthy_opt (o : option string) : bool :=
  match o with Some s => truthy s | None => false end.

(** [s.startswith(p)] *)
Fixpoint startswith (p s : string) : bool :=
  match p, s with
  | "", _ => true
  | String _ _, "" => false
  | String a p', String b s' => if Ascii.eqb a b then startswith p' s' else false
  end.

(** [s[n:]] for [n >= 0] *)
Fixpoint drop (n : nat) (s : string) : string :=
  match n, s with
  | O, _ => s
  | S _, "" => ""
  | S n', String _ s' => drop n' s'
  end.

Definition endswith_char (c : ascii) (s : string) : bool :=
  match String.rev s with
  | String d _ => Ascii.eqb c d
  | "" => false
  end.

(** [c.isspace()] on the code points below 256. *)
Definition isspace (c : ascii) : bool :=
  let n := N_of_ascii c in
  ((9 <=? n) && (n <=? 13) || (28 <=? n) && (n <=? 32)
   || (n =? 133) || (n =? 160))%N.

Fixpoint lstrip (s : string) : string :=
  match s with
  | "" => ""
  | String c s' => if isspace c then lstrip s' else s
  end.
Definition rstrip (s : string) : string := String.rev (lstrip (String.rev s)).
(** [s.strip()] *)
Definition strip (s : string) : string := rstrip (lstrip s).

Definition cons_head (c : ascii) (l : list string) : list string :=
  match l with
  | [] => [String c ""]
  | h :: t => String c h :: t
  end.

(** [s.split(sep)] for a non-empty [sep]: the leftmost occurrences of
    [sep] that do not overlap cut [s]; [skip] counts the characters of
    an occurrence still to pass over. *)
Fixpoint split_go (sep : string) (skip : nat) (s : string) : list string :=
  match s with
  | "" => [""]
  | String c s' =>
      match skip with
      | S k => split_go sep k s'
      | O =>
          if startswith sep s
          then "" :: split_go sep (String.length sep - 1) s'
          else cons_head c (split_go sep 0 s')
      end
  end.
Definition split (sep s : string) : list string := split_go sep 0 s.

(** [sep.join(l)] *)
Fixpoint join (sep : string) (l : list string) : string :=
  match l with
  | [] => ""
  | [x] => x
  | x :: l' => x +:+ sep +:+ join sep l'
  end.

End Str.

(** The line separator, code point 10. *)
Definition newline : string := String "010" "".

(** ** Python lists *)

(** [l.index(x)]: the first position of [x], or [ValueError]. *)
Fixpoint list_index (x : string) (l : list string) : result nat :=
  match l with
  | [] => Raise ValueError
  | y :: l' => if decide (y = x) then Ok O else n ← list_index x l'; Ok (S n)
  end.

(** [l[a:b]] for indices that are not negative. *)
Definition slice (a b : nat) (l : list string) : list string :=
  take (b - a) (drop a l).

(** [l[i]]: the element, or [IndexError]. *)
Definition subscript (l : list string) (i : nat) : result string :=
  match l !! i with
  | Some x => Ok x
  | None => Raise IndexError
  end.

(** ** Paths *)

(** [os.path.join(a, b)] of [posixpath]. *)
Definition os_path_join (a b : string) : string :=
  if Str.startswith "/" b then b
  else if negb (Str.truthy a) || Str.endswith_char "/" a then a +:+ b
  else a +:+ "/" +:+ b.

(** [posixpath.splitroot]: the root ([""], ["/"] or ["//"]) and the rest. *)
Definition splitroot (p : string) : string * string :=
  match p with
  | String "/" (String "/" (String "/" _)) => ("/", Str.drop 1 p)
  | String "/" (String "/" r) => ("//", r)
  | String "/" r => ("/", r)
  | _ => ("", p)
  end.

(** [str(pathlib.PurePosixPath(p))]: empty and ["."] components are
    dropped, and the empty path reads ["."]. *)
Definition pure_path (p : string) : string :=
  let '(root, rel) := splitroot p in
  let parts :=
    filter (λ x, x ≠ "" ∧ x ≠ ".") (Str.split "/" rel) in
  let s := root +:+ Str.join "/" parts in
  if Str.truthy s then s else ".".

Definition is_absolute (p : string) : bool := Str.startswith "/" p.

(** ** The host *)

(** The arguments of a [subprocess.check_output(..., text=True)] call. *)
Record popen : Type := Popen {
  argv : list string;
  stdin_devnull : bool;
  stderr_stdout : bool
}.

(** What became of a child process: it ran and exited with a return code
    and the captured text; or it ran and exited, and what it printed is not
    text in the encoding of the locale; or it could not be started (no such
    executable, no permission). *)
Inductive completed : Type :=
| Exited (returncode : Z) (stdout : string)
| Undecodable (returncode : Z)
| NotStarted (e : exn).

(** The order in which a [for] loop visits a set. *)
Record iteration : Type := Iteration {
  iter_order :> gset string → list string;
  iter_perm : ∀ s, iter_order s ≡ₚ elements s
}.

Record host : Type := Host {
  (** [os.environ] *)
  environ : gmap string string;
  (** [shutil.which] *)
  which : string → option string;
  (** the outcome of running a child process *)
  run : popen → completed;
  (** [os.path.realpath(p, strict=True)] *)
  realpath : string → result string;
  (** [os.path.exists] *)
  path_exists : string → bool;
  (** [os.path.isdir] *)
  path_isdir : string → bool;
  (** iteration order of sets *)
  iter : iteration
}.

(** [subprocess.check_output(..., text=True)]: the captured text when
    the child exits with code 0, [CalledProcessError] when it exits with
    another code, and the error of the failed start when it does not run.
    The output is decoded while it is collected, before the return code is
    looked at: output that does not decode raises [UnicodeDecodeError]
    whatever the code. *)
Definition check_output (h : host) (p : popen) : result string :=
  match run h p with
  | Exited 0 out => Ok out
  | Exited rc _ => Raise (CalledProcessError rc)
  | Undecodable _ => Raise UnicodeDecodeError
  | NotStarted e => Raise e
  end.

(** [pathlib.Path(p).resolve(strict=True).as_posix()] *)
Definition resolve (h : host) (p : string) : result string :=
  q ← realpath h (pure_path p); Ok (pure_path q).

(** ** The discovery procedure *)

Definition split_paths (paths : string) : list string := Str.split ":" paths.

(** One round of the loop of [standardize_paths]. *)
Definition standardize_step (h : host) (path : string)
    (resolved_paths : gset string) : result (gset string) :=
  try_except
    (q ← resolve h path; Ok ({[q]} ∪ resolved_paths))
    is_FileNotFoundError
    (Ok resolved_paths).

Fixpoint standardize_loop (h : host) (l : list string)
    (resolved_paths : gset string) : result (gset string) :=
  match l with
  | [] => Ok resolved_paths
  | path :: l' =>
      acc ← standardize_step h path resolved_paths;
      standardize_loop h l' acc
  end.

Definition standardize_paths (h : host) (paths : gset string)
    : result (gset string) :=
  standardize_loop h (iter h paths) ∅.

(** The inner [_get_from_env]: the update it makes to [paths]. *)
Definition _get_from_env (h : host) (name : string) (paths : gset string)
    : gset string :=
  match environ h !! name with
  | Some env => if Str.truthy env then paths ∪ list_to_set (split_paths env)
                else paths
  | None => paths
  end.

Definition get_env_include_paths (h : host) : gset string :=
  let paths := ∅ in
  let paths := _get_from_env h "YOGRT_INCLUDE_PATH" paths in
  let paths := _get_from_env h "CPATH" paths in
  let paths := _get_from_env h "C_INCLUDE_PATH" paths in
  paths.

Definition get_env_library_paths (h : host) : gset string :=
  let paths := ∅ in
  let paths := _get_from_env h "YOGRT_LIBRARY_PATH" paths in
  let paths := _get_from_env h "LIBRARY_PATH" paths in
  paths.

Definition determine_compiler (h : host) : option string :=
  let compiler := environ h !! "CC" in
  if Str.truthy_opt compiler then compiler else
  let compiler := which h "cc" in
  if Str.truthy_opt compiler then compiler else
  let compiler := which h "gcc" in
  if Str.truthy_opt compiler then compiler else
  let compiler := which h "clang" in
  if Str.truthy_opt compiler then compiler else
  None.

(** [COMPILER -print-prog-name=cpp] *)
Definition print_prog_name (compiler : string) : popen :=
  Popen [compiler; "-print-prog-name=cpp"] false false.

Definition determine_preprocessor (h : host) (compiler : string)
    : result (option string) :=
  match check_output h (print_prog_name compiler) with
  | Raise e => if is_CalledProcessError e then Ok None else Raise e
  | Ok cpp => Ok (Some (Str.strip cpp))
  end.

(** The two marker lines of a verbose preprocessor trace. *)
Definition search_starts : string := "#include <...> search starts here:".
Definition search_ends : string := "End of search list.".

(** The parsing half of [get_compiler_include_paths], from
    [output.split] on. *)
Definition parse_include_paths (output : string) : gset string :=
  let paths : gset string := ∅ in
  let output := Str.split newline output in
  match list_index search_starts output with
  | Raise _ => paths
  | Ok i =>
      let include_start := (i + 1)%nat in
      match list_index search_ends output with
      | Raise _ => paths
      | Ok include_end =>
          let raw_paths := slice include_start include_end output in
          let raw_paths := Str.strip <$> raw_paths in
          paths ∪ list_to_set raw_paths
      end
  end.

(** [CPP -v < /dev/null], with standard error merged into the output. *)
Definition cpp_verbose (cpp : string) : popen := Popen [cpp; "-v"] true true.

Definition get_compiler_include_paths (h : host) : result (gset string) :=
  let paths : gset string := ∅ in
  match determine_compiler h with
  | None | Some "" => Ok paths
  | Some compiler =>
      cpp ← determine_preprocessor h compiler;
      match cpp with
      | None | Some "" => Ok paths
      | Some cpp =>
          match check_output h (cpp_verbose cpp) with
          | Raise e => if is_CalledProcessError e then Ok paths else Raise e
          | Ok output => Ok (parse_include_paths output)
          end
      end
  end.

Definition library_path_prefix : string := "LIBRARY_PATH=".

Definition parse_library_paths (output : string) : gset string :=
  let output := Str.split newline output in
  foldl (λ paths line,
           if Str.startswith library_path_prefix line
           then paths ∪ list_to_set
                  (split_paths (Str.drop (String.length library_path_prefix) line))
           else paths)
        ∅ output.

Definition get_compiler_library_paths (h : host) : result (gset string) :=
  let paths : gset string := ∅ in
  match determine_compiler h with
  | None | Some "" => Ok paths
  | Some compiler =>
      cpp ← determine_preprocessor h compiler;
      match cpp with
      | None | Some "" => Ok paths
      | Some cpp =>
          match check_output h (cpp_verbose cpp) with
          | Raise e => if is_CalledProcessError e then Ok paths else Raise e
          | Ok output => Ok (parse_library_paths output)
          end
      end
  end.

(** One round of the loop of [get_ldconfig_library_paths]. *)
Definition ldconfig_line (line : string) (paths : gset string)
    : result (gset string) :=
  let line := Str.strip line in
  if Str.startswith "libyogrt.so " line then
    path ← subscript (Str.split " => " line) 1;
    Ok ({[path]} ∪ paths)
  else Ok paths.

Fixpoint ldconfig_loop (output : list string) (paths : gset string)
    : result (gset string) :=
  match output with
  | [] => Ok paths
  | line :: output' =>
      paths ← ldconfig_line line paths;
      ldconfig_loop output' paths
  end.

(** The parsing half of [get_ldconfig_library_paths]. *)
Definition parse_ldconfig (output : string) : result (gset string) :=
  ldconfig_loop (Str.split newline output) ∅.

(** [ldconfig -p] *)
Definition ldconfig_p : popen := Popen ["ldconfig"; "-p"] false false.

Definition get_ldconfig_library_paths (h : host) : result (gset string) :=
  let paths : gset string := ∅ in
  match check_output h ldconfig_p with
  | Raise e => if is_CalledProcessError e then Ok paths else Raise e
  | Ok output => parse_ldconfig output
  end.

(** The two errors of a failed lookup. *)
Definition header_not_found : exn := RuntimeError "Could not find yogrt.h".
Definition library_not_found : exn := RuntimeError "Could not find libyogrt.so".

(** The loop of [find_yogrt_h] over the standardized paths. *)
Fixpoint search_header (h : host) (paths : list string) : result string :=
  match paths with
  | [] => Raise header_not_found
  | path :: paths' =>
      let header_path := os_path_join path "yogrt.h" in
      if path_exists h header_path then Ok header_path
      else search_header h paths'
  end.

(** The include search set of [find_yogrt_h], before it is standardized. *)
Definition include_paths (h : host) : result (gset string) :=
  compiler_paths ← get_compiler_include_paths h;
  let paths := get_env_include_paths h ∪ compiler_paths in
  let paths := {["/usr/include"]} ∪ paths in
  let paths := {["/usr/local/include"]} ∪ paths in
  Ok paths.

Definition find_yogrt_h (h : host) : result string :=
  paths ← include_paths h;
  paths ← standardize_paths h paths;
  search_header h (iter h paths).

Definition preprocess_header (h : host) (header_path : string) : result string :=
  match determine_compiler h with
  | None | Some "" => Raise (RuntimeError "Could not determine a compiler")
  | Some cc => check_output h (Popen [cc; "-E"; "-P"; header_path] false false)
  end.

(** The library search set of [find_yogrt_lib], before it is standardized. *)
Definition library_paths (h : host) : result (gset string) :=
  compiler_paths ← get_compiler_library_paths h;
  ldconfig_paths ← get_ldconfig_library_paths h;
  let paths := get_env_library_paths h ∪ compiler_paths ∪ ldconfig_paths in
  let paths := {["/lib"]} ∪ paths in
  let paths := {["/lib64"]} ∪ paths in
  let paths := {["/usr/lib"]} ∪ paths in
  let paths := {["/usr/lib64"]} ∪ paths in
  let paths := {["/usr/local/lib"]} ∪ paths in
  let paths := {["/usr/local/lib64"]} ∪ paths in
  Ok paths.

(** The filtering loop of [find_yogrt_lib]. *)
Definition select_libyogrt (h : host) (paths : list string) : gset string :=
  foldl (λ paths_with_libyogrt path,
           if path_exists h (os_path_join path "libyogrt.so")
           then {[path]} ∪ paths_with_libyogrt
           else paths_with_libyogrt)
        ∅ paths.

Definition find_yogrt_lib (h : host) : result (gset string) :=
  paths ← library_paths h;
  paths ← standardize_paths h paths;
  let paths_with_libyogrt := select_libyogrt h (iter h paths) in
  if decide (paths_with_libyogrt = ∅)
  then Raise library_not_found
  else Ok paths_with_libyogrt.

(** ** Reference readings of the specification *)

(** "In strict priority order, first match wins": the first candidate of a
    list that is neither absent nor empty. *)
Fixpoint first_match (candidates : list (option string)) : option string :=
  match candidates with
  | [] => None
  | c :: rest => if Str.truthy_opt c then c else first_match rest
  end.

(** A directory holds a file when the joined path exists. *)
Definition holds (h : host) (name dir : string) : Prop :=
  path_exists h (os_path_join dir name) = true.

Global Instance holds_dec h name dir : Decision (holds h name dir).
Proof. unfold holds. apply _. Defined.

(** A colon-separated list has an empty segment: a leading, a trailing or
    a doubled colon. *)
Definition has_empty_segment (v : string) : Prop :=
  (∃ x, v = ":" +:+ x) ∨ (∃ x, v = x +:+ ":") ∨ (∃ x y, v = x +:+ "::" +:+ y).

(** The fixed system directories every search set holds. *)
Definition system_include_dirs : gset string :=
  {["/usr/include"; "/usr/local/include"]}.
Definition system_library_dirs : gset string :=
  {["/lib"; "/lib64"; "/usr/lib"; "/usr/lib64"; "/usr/local/lib";
    "/usr/local/lib64"]}.

(** What [realpath] promises of its results: an absolute path in
    [pathlib]'s normal form that resolves to itself, so that no symbolic
    link is left in it. *)
Definition canonical (h : host) (q : string) : Prop :=
  is_absolute q = true ∧ pure_path q = q ∧ realpath h q = Ok q.

Definition realpath_canonical (h : host) : Prop :=
  ∀ p q, realpath h p = Ok q → canonical h q.

(** ** Concrete hosts *)

Global Instance exn_eq_dec : EqDecision exn.
Proof. solve_decision. Defined.
Global Instance result_eq_dec {A} `{EqDecision A} : EqDecision (result A).
Proof. solve_decision. Defined.
Global Instance popen_eq_dec : EqDecision popen.
Proof. solve_decision. Defined.

Module Fixture.

(** A host given by finite tables. An executable that is not in [procs]
    cannot be started; a path that is not in [links] does not exist. *)
Record t : Type := Make {
  env : list (string * string);
  exes : list (string * string);
  procs : list (popen * completed);
  links : list (string * result string);
  files : list string;
  dirs : list string
}.

Fixpoint assoc {K V} `{EqDecision K} (k : K) (l : list (K * V)) : option V :=
  match l with
  | [] => None
  | (k', v) :: l' => if decide (k' = k) then Some v else assoc k l'
  end.

Definition sorted_order : iteration :=
  Iteration elements (λ s, reflexivity (elements s)).

Definition reversed_order : iteration :=
  Iteration (λ s, reverse (elements s)) (λ s, reverse_Permutation (elements s)).

Definition to_host (order : iteration) (f : t) : host := {|
  environ := list_to_map (env f);
  which := λ name, assoc name (exes f);
  run := λ p, default (NotStarted FileNotFoundError) (assoc p (procs f));
  realpath := λ p, default (Raise FileNotFoundError) (assoc p (links f));
  path_exists := λ p, bool_decide (p ∈ files f ∨ p ∈ dirs f);
  path_isdir := λ p, bool_decide (p ∈ dirs f);
  iter := order
|}.

(** Every result in [links] is canonical. *)
Definition links_canonical (f : t) : bool :=
  forallb (λ '(_, r),
             match r with
             | Ok q => is_absolute q
                       && bool_decide (pure_path q = q)
                       && bool_decide (assoc q (links f) = Some (Ok q))
             | Raise _ => true
             end) (links f).

End Fixture.

Module CompilerHosts.
Import Fixture.

(** [CC] is set, and [cc] and [gcc] are on the search path as well. *)
Definition with_CC : host := to_host sorted_order {|
  env := [("CC", "/opt/llvm/bin/clang-17")];
  exes := [("cc", "/usr/bin/cc"); ("gcc", "/usr/bin/gcc")];
  procs := []; links := []; files := []; dirs := []
|}.

(** [CC] is set to the empty string; only [gcc] and [clang] are found. *)
Definition empty_CC : host := to_host sorted_order {|
  env := [("CC", "")];
  exes := [("gcc", "/usr/bin/gcc"); ("clang", "/usr/bin/clang")];
  procs := []; links := []; files := []; dirs := []
|}.

(** No compiler at all. *)
Definition bare : host := to_host sorted_order {|
  env := []; exes := []; procs := []; links := []; files := []; dirs := []
|}.
End CompilerHosts.

Module EnvHosts.
Import Fixture.

(** Only the variable the docstring of [get_env_library_paths] names is
    set. *)
Definition lib_path_only : host := to_host sorted_order {|
  env := [("YOGRT_LIB_PATH", "/opt/yogrt/lib:/opt/yogrt/lib64")];
  exes := []; procs := []; links := []; files := []; dirs := []
|}.

(** The same list under the name the code reads. *)
Definition library_path_only : host := to_host sorted_order {|
  env := [("YOGRT_LIBRARY_PATH", "/opt/yogrt/lib:/opt/yogrt/lib64")];
  exes := []; procs := []; links := []; files := []; dirs := []
|}.
End EnvHosts.

(** The character [c] does not occur in [s]. *)
Fixpoint lacks (c : ascii) (s : string) : bool :=
  match s with
  | "" => true
  | String d s' => negb (Ascii.eqb c d) && lacks c s'
  end.

(** A string is one line when the separator does not occur in it. *)
Fixpoint one_line (s : string) : bool :=
  match s with
  | "" => true
  | String c s' => negb (Ascii.eqb "010" c) && one_line s'
  end.

Module TraceHosts.
Import Fixture.

(** What [cpp -v] prints on a GNU system, cut down to six lines. *)
Definition gcc_trace : string :=
  Str.join newline
    ["ignoring nonexistent directory /usr/include/x86_64-linux-gnu";
     search_starts;
     " /usr/lib/gcc/x86_64-linux-gnu/12/include";
     " /usr/local/include";
     " /usr/include";
     search_ends;
     "LIBRARY_PATH=/usr/lib/gcc/x86_64-linux-gnu/12/:/lib/:/usr/lib/";
     ""].
End TraceHosts.

Definition ldconfig_versioned : string :=
  "libyogrt.so.1 => /opt/lib/libyogrt.so.1".
Definition ldconfig_exact : string :=
  "libyogrt.so => /opt/lib/libyogrt.so".

(** What [ldconfig -p] prints, with its heading and tab-indented lines. *)
Definition ldconfig_listing : string :=
  Str.join newline
    ["2 libs found in cache `/etc/ld.so.cache'";
     String "009" "libyogrt.so.1 (libc6,x86-64) => /opt/lib/libyogrt.so.1";
     String "009" "libyogrt.so (libc6,x86-64) => /opt/lib/libyogrt.so";
     "Cache generated by: ldconfig (GNU libc) stable release version 2.36";
     ""].

(** Every child process the host is asked for starts and exits. *)
Definition all_start (h : host) : Prop :=
  ∀ p, ∃ rc out, run h p = Exited rc out.

Module ProbeHosts.
Import Fixture.

(** [CC] names a compiler that is not installed, and there is no
    [ldconfig] on the search path. *)
Definition tools_missing : host := to_host sorted_order {|
  env := [("CC", "/opt/llvm/bin/clang-17")];
  exes := []; procs := []; links := []; files := []; dirs := []
|}.

(** Every tool is there and fails. *)
Definition tools_fail : host := to_host sorted_order {|
  env := [];
  exes := [("cc", "/usr/bin/cc")];
  procs := [(print_prog_name "/usr/bin/cc", Exited 1 "");
            (ldconfig_p, Exited 1 "")];
  links := []; files := []; dirs := []
|}.

(** The preprocessor prints a trace without the marker lines. *)
Definition odd_trace : host := to_host sorted_order {|
  env := [];
  exes := [("gcc", "/usr/bin/gcc")];
  procs := [(print_prog_name "/usr/bin/gcc",
             Exited 0 (" /usr/libexec/cpp" +:+ newline));
            (cpp_verbose "/usr/libexec/cpp", Exited 0 "cpp: fatal error: no input files");
            (ldconfig_p, Exited 0 ldconfig_listing)];
  links := []; files := []; dirs := []
|}.

(** A cache listing with a matching line that has no [ => ]. *)
Definition odd_listing : host := to_host sorted_order {|
  env := []; exes := [];
  procs := [(ldconfig_p, Exited 0 "libyogrt.so (libc6,x86-64)")];
  links := []; files := []; dirs := []
|}.
(** The compiler of [CC] and [ldconfig] print bytes that are not text. *)
Definition garbled : host := to_host sorted_order {|
  env := [("CC", "/usr/bin/gcc")];
  exes := [];
  procs := [(print_prog_name "/usr/bin/gcc", Undecodable 0);
            (ldconfig_p, Undecodable 1)];
  links := []; files := []; dirs := []
|}.

(** The preprocessor the compiler names is not installed. *)
Definition no_cpp : host := to_host sorted_order {|
  env := [("CC", "/usr/bin/gcc")];
  exes := [];
  procs := [(print_prog_name "/usr/bin/gcc", Exited 0 ("cpp" +:+ newline))];
  links := []; files := []; dirs := []
|}.

(** The compiler names no preprocessor: it prints an empty line. *)
Definition silent : host := to_host sorted_order {|
  env := [("CC", "/usr/bin/gcc")];
  exes := [];
  procs := [(print_prog_name "/usr/bin/gcc", Exited 0 newline)];
  links := []; files := []; dirs := []
|}.

End ProbeHosts.

Module PathHosts.
Import Fixture.

(** [/opt/yogrt/current] is a symbolic link to [/opt/yogrt/1.35];
    [/usr/local/include] does not exist; the working directory is
    [/home/user/build]. *)
Definition links_ok : t := {|
  env := []; exes := []; procs := [];
  links := [("/usr/include", Ok "/usr/include");
            ("/opt/yogrt/current", Ok "/opt/yogrt/1.35");
            ("/opt/yogrt/1.35", Ok "/opt/yogrt/1.35");
            (".", Ok "/home/user/build");
            ("/home/user/build", Ok "/home/user/build")];
  files := []; dirs := []
|}.
Definition symlinks : host := to_host sorted_order links_ok.

(** [CPATH] names a path below the regular file [/etc/passwd]. *)
Definition below_a_file : host := to_host sorted_order {|
  env := [("CPATH", "/etc/passwd/include")];
  exes := []; procs := [];
  links := [("/usr/include", Ok "/usr/include");
            ("/etc/passwd/include", Raise NotADirectoryError)];
  files := ["/etc/passwd"]; dirs := ["/usr/include"]
|}.
End PathHosts.

Module LookupHosts.
Import Fixture.

(** The end-to-end scenario of the specification: a working [gcc] in
    [CC], the header in [/opt/yogrt/include], named by
    [YOGRT_INCLUDE_PATH], and the library in [/opt/yogrt/lib], named by
    [YOGRT_LIBRARY_PATH] and listed in the linker cache. *)
Definition scenario : t := {|
  env := [("CC", "/usr/bin/gcc");
          ("YOGRT_INCLUDE_PATH", "/opt/yogrt/include");
          ("YOGRT_LIBRARY_PATH", "/opt/yogrt/lib")];
  exes := [("gcc", "/usr/bin/gcc")];
  procs := [(print_prog_name "/usr/bin/gcc", Exited 0 ("cpp" +:+ newline));
            (cpp_verbose "cpp", Exited 0 TraceHosts.gcc_trace);
            (ldconfig_p, Exited 0
               (String "009" "libyogrt.so (libc6,x86-64) => /opt/yogrt/lib/libyogrt.so"))];
  links := [("/usr/include", Ok "/usr/include");
            ("/usr/lib", Ok "/usr/lib");
            ("/lib", Ok "/usr/lib");
            ("/opt/yogrt/include", Ok "/opt/yogrt/include");
            ("/opt/yogrt/lib", Ok "/opt/yogrt/lib");
            ("/opt/yogrt/lib/libyogrt.so", Ok "/opt/yogrt/lib/libyogrt.so.1.0.0");
            ("/opt/yogrt/lib/libyogrt.so.1.0.0", Ok "/opt/yogrt/lib/libyogrt.so.1.0.0")];
  files := ["/opt/yogrt/include/yogrt.h"; "/opt/yogrt/lib/libyogrt.so";
            "/opt/yogrt/lib/libyogrt.so.1.0.0"];
  dirs := ["/usr/include"; "/usr/lib"; "/opt/yogrt/include"; "/opt/yogrt/lib"]
|}.
Definition installed : host := to_host sorted_order scenario.
Definition installed_reversed : host := to_host reversed_order scenario.

(** The same host without the header and the library. *)
Definition not_installed : host := to_host sorted_order {|
  env := env scenario; exes := exes scenario;
  procs := [(print_prog_name "/usr/bin/gcc", Exited 0 ("cpp" +:+ newline));
            (cpp_verbose "cpp", Exited 0 TraceHosts.gcc_trace);
            (ldconfig_p, Exited 0 "")];
  links := [("/usr/include", Ok "/usr/include");
            ("/usr/lib", Ok "/usr/lib");
            ("/lib", Ok "/usr/lib")];
  files := []; dirs := ["/usr/include"; "/usr/lib"]
|}.

(** The include search set of both hosts, and what is left of it on
    [installed] once it is standardized. *)
Definition include_set : gset string :=
  {["/opt/yogrt/include"; "/usr/lib/gcc/x86_64-linux-gnu/12/include";
    "/usr/local/include"; "/usr/include"]}.
Definition include_dirs : gset string :=
  {["/opt/yogrt/include"; "/usr/include"]}.
End LookupHosts.

Module LibraryHosts.
(** The library search set of [LookupHosts.installed], and what is left
    of it once it is standardized: [/lib] is a link to [/usr/lib], and
    the entry of the linker cache is a link to the versioned file. *)
Definition library_set : gset string :=
  {["/opt/yogrt/lib"; "/opt/yogrt/lib/libyogrt.so";
    "/usr/lib/gcc/x86_64-linux-gnu/12/"; "/lib/"; "/usr/lib/";
    "/lib"; "/lib64"; "/usr/lib"; "/usr/lib64";
    "/usr/local/lib"; "/usr/local/lib64"]}.
Definition library_dirs : gset string :=
  {["/opt/yogrt/lib"; "/opt/yogrt/lib/libyogrt.so.1.0.0"; "/usr/lib"]}.
End LibraryHosts.

Module CwdHosts.
Import Fixture.

(** [CPATH] ends in a colon, [LIBRARY_PATH] has a doubled one, and the build
    runs in [/home/user/build], where a stray [yogrt.h] lies. *)
Definition trailing_colon : t := {|
  env := [("CPATH", "/a:"); ("LIBRARY_PATH", "/opt/lib::/b")];
  exes := [];
  procs := [(ldconfig_p, Exited 0 "")];
  links := [(".", Ok "/home/user/build");
            ("/home/user/build", Ok "/home/user/build");
            ("/usr/include", Ok "/usr/include")];
  files := ["/home/user/build/yogrt.h"; "/home/user/build/libyogrt.so"];
  dirs := ["/home/user/build"; "/usr/include"]
|}.
Definition build_dir : host := to_host sorted_order trailing_colon.
End CwdHosts.

Module CacheHosts.
Import Fixture.

(** The library is installed in [/opt/lib] and known to the linker
    cache, and no variable names that directory. *)
Definition cache_only : host := to_host sorted_order {|
  env := []; exes := [];
  procs := [(ldconfig_p, Exited 0 ldconfig_listing)];
  links := [("/usr/lib", Ok "/usr/lib");
            ("/opt/lib", Ok "/opt/lib");
            ("/opt/lib/libyogrt.so", Ok "/opt/lib/libyogrt.so.1.0.0");
            ("/opt/lib/libyogrt.so.1.0.0", Ok "/opt/lib/libyogrt.so.1.0.0")];
  files := ["/opt/lib/libyogrt.so"; "/opt/lib/libyogrt.so.1";
            "/opt/lib/libyogrt.so.1.0.0"];
  dirs := ["/usr/lib"; "/opt/lib"]
|}.
(** [ldconfig -p] prints the two lines of the specification. *)
Definition two_lines : host := to_host sorted_order {|
  env := []; exes := [];
  procs := [(ldconfig_p,
             Exited 0 (Str.join newline [ldconfig_versioned; ldconfig_exact]))];
  links := []; files := []; dirs := []
|}.

End CacheHosts.

(** ** The module body *)

(** What the body of [generate_bindings.py] hands to [cffi]: the text
    given to [ffibuilder.cdef] and the arguments of
    [ffibuilder.set_source]. *)
Record bindings : Type := Bindings {
  cdef_source : string;
  module_name : string;
  c_source : string;
  libraries : list string;
  library_dirs : list string;
  runtime_library_dirs : list string
}.

Global Instance bindings_eq_dec : EqDecision bindings.
Proof. solve_decision. Defined.

(** The second argument of [set_source]: a line break, the include line
    and a line break, each followed by the indentation of the call. *)
Definition set_source_text : string :=
  let indent := "                      " in
  newline +:+ indent +:+ "#include <yogrt.h>" +:+ newline +:+ indent.

(** The statements of the module body, up to [set_source];
    [list(find_yogrt_lib())] visits the set in the order of the host. *)
Definition generate_bindings (h : host) : result bindings :=
  yogrt_h_path ← find_yogrt_h h;
  found ← find_yogrt_lib h;
  let lib_paths := iter h found in
  header ← preprocess_header h yogrt_h_path;
  Ok {| cdef_source := header;
        module_name := "yogrt._yogrt_c";
        c_source := set_source_text;
        libraries := ["yogrt"];
        library_dirs := lib_paths;
        runtime_library_dirs := lib_paths |}.

(** The error of [preprocess_header] when no compiler is found. *)
Definition no_compiler_error : exn :=
  RuntimeError "Could not determine a compiler".

(** A text that does not begin with white space. *)
Definition lstripped (s : string) : Prop :=
  match s with
  | "" => True
  | String c _ => Str.isspace c = false
  end.

(** The same host with another iteration order of sets. *)
Definition with_iter (order : iteration) (h : host) : host := {|
  environ := environ h;
  which := which h;
  run := run h;
  realpath := realpath h;
  path_exists := path_exists h;
  path_isdir := path_isdir h;
  iter := order
|}.

(** A line of the linker cache listing that the parser takes up. *)
Definition ldconfig_match (line : string) : bool :=
  Str.startswith "libyogrt.so " (Str.strip line).

(** ** The wrapper module [yogrt/__init__.py] *)

Module Yogrt.

(** The [lib] object of the compiled extension: its attributes are the C
    functions it was built with. A C function takes arguments of type
    [int], may change the state of the library and returns an integer.
    Reading an attribute the object does not have raises [AttributeError].
    Calling a function converts each Python integer to a C [int] first; one
    that does not fit raises [OverflowError], and the function is not
    called. *)
Definition cfunction (S : Type) : Type := list Z → S → Z * S.

Inductive outcome (S A : Type) : Type :=
| Returned (a : A) (st : S)
| AttributeError (name : string)
| OverflowError.
Arguments Returned {S A} a st.
Arguments AttributeError {S A} name.
Arguments OverflowError {S A}.

(** The values of a C [int] of 32 bits: the docstring of [get_remaining]
    names [INT_MAX] as 2^31 - 1. *)
Definition INT_MIN : Z := - 2 ^ 31.
Definition INT_MAX : Z := 2 ^ 31 - 1.
Definition fits_int (n : Z) : bool := (INT_MIN <=? n) && (n <=? INT_MAX).

(** [lib.name(args)]: the attribute is read, then the arguments are
    converted, then the function runs. *)
Definition call {S} (lib : gmap string (cfunction S)) (name : string)
    (args : list Z) (st : S) : outcome S Z :=
  match lib !! name with
  | Some f =>
      if forallb fits_int args
      then let '(r, st') := f args st in Returned r st'
      else OverflowError
  | None => AttributeError name
  end.

(** A wrapper that returns nothing drops the result of the C function. *)
Definition call_ {S} (lib : gmap string (cfunction S)) (name : string)
    (args : list Z) (st : S) : outcome S unit :=
  match call lib name args st with
  | Returned _ st' => Returned () st'
  | AttributeError n => AttributeError n
  | OverflowError => OverflowError
  end.

Definition get_remaining {S} (lib : gmap string (cfunction S)) :=
  call lib "yogrt_remaining" [].
Definition set_remaining {S} (lib : gmap string (cfunction S)) (seconds : Z) :=
  call_ lib "yogrt_set_remaining" [seconds].
Definition set_interval1 {S} (lib : gmap string (cfunction S)) (seconds : Z) :=
  call_ lib "yogrt_set_interval1" [seconds].
Definition set_interval2 {S} (lib : gmap string (cfunction S)) (seconds : Z) :=
  call_ lib "yogrt_set_interval2" [seconds].
Definition set_interval2_start {S} (lib : gmap string (cfunction S)) (seconds : Z) :=
  call_ lib "set_interval2_start" [seconds].
Definition get_interval1 {S} (lib : gmap string (cfunction S)) :=
  call lib "yogrt_get_interval1" [].
Definition get_interval2 {S} (lib : gmap string (cfunction S)) :=
  call lib "yogrt_get_interval2" [].
Definition get_interval2_start {S} (lib : gmap string (cfunction S)) :=
  call lib "yogrt_get_interval2_start" [].
Definition set_debug {S} (lib : gmap string (cfunction S)) (val : Z) :=
  call_ lib "yogrt_set_debug" [val].
Definition get_debug {S} (lib : gmap string (cfunction S)) :=
  call lib "yogrt_get_debug" [].

(** A library whose state is the three intervals, the cached remaining
    time and the debug level, exporting the functions the wrappers of
    [__all__] are named after. *)
Record timers : Type := Timers {
  remaining : Z;
  interval1 : Z;
  interval2 : Z;
  interval2_start : Z;
  debug : Z
}.

Definition arg (args : list Z) : Z := default 0 (head args).

Definition libyogrt : gmap string (cfunction timers) :=
  list_to_map
    [("yogrt_remaining", λ _ t, (remaining t, t));
     ("yogrt_set_remaining",
        λ a t, (0, Timers (arg a) (interval1 t) (interval2 t) (interval2_start t) (debug t)));
     ("yogrt_set_interval1",
        λ a t, (0, Timers (remaining t) (arg a) (interval2 t) (interval2_start t) (debug t)));
     ("yogrt_set_interval2",
        λ a t, (0, Timers (remaining t) (interval1 t) (arg a) (interval2_start t) (debug t)));
     ("yogrt_set_interval2_start",
        λ a t, (0, Timers (remaining t) (interval1 t) (interval2 t) (arg a) (debug t)));
     ("yogrt_get_interval1", λ _ t, (interval1 t, t));
     ("yogrt_get_interval2", λ _ t, (interval2 t, t));
     ("yogrt_get_interval2_start", λ _ t, (interval2_start t, t));
     ("yogrt_set_debug",
        λ a t, (0, Timers (remaining t) (interval1 t) (interval2 t) (interval2_start t) (arg a)));
     ("yogrt_get_debug", λ _ t, (debug t, t))].

End Yogrt.

Module ExtraHosts.
Import Fixture.

(** The header and the library are installed, and there is no compiler:
    [CC] is not set and the search path has none of [cc], [gcc],
    [clang]. *)
Definition no_compiler : host := to_host sorted_order {|
  env := [("YOGRT_INCLUDE_PATH", "/opt/yogrt/include");
          ("YOGRT_LIBRARY_PATH", "/opt/yogrt/lib")];
  exes := [];
  procs := [(ldconfig_p, Exited 0 "")];
  links := [("/opt/yogrt/include", Ok "/opt/yogrt/include");
            ("/opt/yogrt/lib", Ok "/opt/yogrt/lib")];
  files := ["/opt/yogrt/include/yogrt.h"; "/opt/yogrt/lib/libyogrt.so"];
  dirs := ["/opt/yogrt/include"; "/opt/yogrt/lib"]
|}.

(** [LookupHosts.scenario] with a compiler that preprocesses the header. *)
Definition yogrt_h_text : string :=
  "extern int yogrt_remaining(void);" +:+ newline.
Definition complete_fixture : t := {|
  env := env LookupHosts.scenario;
  exes := exes LookupHosts.scenario;
  procs := (Popen ["/usr/bin/gcc"; "-E"; "-P"; "/opt/yogrt/include/yogrt.h"]
              false false, Exited 0 yogrt_h_text)
           :: procs LookupHosts.scenario;
  links := links LookupHosts.scenario;
  files := files LookupHosts.scenario;
  dirs := dirs LookupHosts.scenario
|}.
Definition complete : host := to_host reversed_order complete_fixture.

(** The compiler is there and rejects the header. *)
Definition broken_header : host := to_host sorted_order {|
  env := env LookupHosts.scenario;
  exes := exes LookupHosts.scenario;
  procs := (Popen ["/usr/bin/gcc"; "-E"; "-P"; "/opt/yogrt/include/yogrt.h"]
              false false, Exited 1 "")
           :: procs LookupHosts.scenario;
  links := links LookupHosts.scenario;
  files := files LookupHosts.scenario;
  dirs := dirs LookupHosts.scenario
|}.

(** The library lies in [/usr/lib], to which [/lib] is a link, and
    nothing names it: no variable is set and there is no compiler. *)
Definition system_only : host := to_host sorted_order {|
  env := []; exes := [];
  procs := [(ldconfig_p, Exited 0 "")];
  links := [("/lib", Ok "/usr/lib"); ("/usr/lib", Ok "/usr/lib")];
  files := ["/usr/lib/libyogrt.so"];
  dirs := ["/usr/lib"]
|}.

(** The library is installed and named by [YOGRT_LIBRARY_PATH], and the
    search path has no [ldconfig]. *)
Definition no_ldconfig : host := to_host sorted_order {|
  env := [("YOGRT_LIBRARY_PATH", "/opt/yogrt/lib")];
  exes := []; procs := [];
  links := [("/opt/yogrt/lib", Ok "/opt/yogrt/lib")];
  files := ["/opt/yogrt/lib/libyogrt.so"];
  dirs := ["/opt/yogrt/lib"]
|}.

(** What the module body hands to [cffi] on [complete]. *)
Definition bindings_of_complete : bindings := {|
  cdef_source := yogrt_h_text;
  module_name := "yogrt._yogrt_c";
  c_source := set_source_text;
  libraries := ["yogrt"];
  library_dirs := ["/opt/yogrt/lib"];
  runtime_library_dirs := ["/opt/yogrt/lib"]
|}.

End ExtraHosts.

(** * Properties *)

(** Settle a decidable closed goal by evaluating its decision procedure. *)
Ltac decide_by_compute :=
  refine (bool_decide_unpack _ _); vm_compute; exact I.

(** ** Strings *)

Section strings.

Lemma split_go_nonempty sep k s : Str.split_go sep k s ≠ [].
Proof.
  revert k. induction s as [|c s IH]; intros k; simpl; [done|].
  destruct k; [|apply IH].
  destruct (Str.startswith sep (String c s)); [done|].
  specialize (IH 0%nat). by destruct (Str.split_go sep 0 s).
Qed.

Lemma cons_head_app c l1 l2 :
  l1 ≠ [] → Str.cons_head c (l1 ++ l2) = Str.cons_head c l1 ++ l2.
Proof. by destruct l1. Qed.

(** Cutting at colons distributes over a colon. *)
Lemma split_paths_colon x y :
  split_paths (x +:+ ":" +:+ y) = split_paths x ++ split_paths y.
Proof.
  unfold split_paths, Str.split.
  induction x as [|c x IH]; [done|].
  change (String c x +:+ ":" +:+ y) with (String c (x +:+ ":" +:+ y)).
  cbn [Str.split_go Str.startswith].
  destruct (Ascii.eqb ":" c); cbn [String.length Nat.sub]; rewrite IH.
  - done.
  - apply cons_head_app, split_go_nonempty.
Qed.

Lemma split_paths_empty : split_paths "" = [""].
Proof. done. Qed.

Lemma empty_segment_split v : has_empty_segment v → "" ∈ split_paths v.
Proof.
  intros [[x ->]|[[x ->]|(x & y & ->)]].
  - change (":" +:+ x) with ("" +:+ ":" +:+ x).
    rewrite split_paths_colon. set_solver.
  - replace (x +:+ ":") with (x +:+ ":" +:+ "") by done.
    rewrite split_paths_colon. set_solver.
  - change (x +:+ "::" +:+ y) with (x +:+ ":" +:+ "" +:+ ":" +:+ y).
    rewrite !split_paths_colon. set_solver.
Qed.

Lemma empty_segment_truthy v : has_empty_segment v → Str.truthy v = true.
Proof.
  intros [[x ->]|[[x ->]|(x & y & ->)]]; [done|by destruct x..].
Qed.

Lemma startswith_app p s : Str.startswith p (p +:+ s) = true.
Proof.
  induction p as [|c p IH]; [done|].
  change (String c p +:+ s) with (String c (p +:+ s)).
  cbn [Str.startswith]. by rewrite Ascii.eqb_refl.
Qed.

End strings.

(** ** Compiler resolution *)

Lemma first_match_truthy l c :
  first_match l = Some c → Str.truthy c = true.
Proof.
  induction l as [|o l IH]; [done|]. simpl.
  destruct (Str.truthy_opt o) eqn:E; [|done].
  intros ->. done.
Qed.

(** C5: compiler resolution is a first match in the order [CC], [cc],
    [gcc], [clang]. A [CC] that is set and not empty is returned whatever
    the search path holds; otherwise the first of [cc], [gcc], [clang] the
    search path finds is returned; when nothing is found the result is
    [None]. The function is total: it returns an [option] and raises
    nothing. *)
Theorem determine_compiler_first_match (h : host) :
  determine_compiler h
    = first_match [environ h !! "CC"; which h "cc"; which h "gcc"; which h "clang"]
  ∧ (∀ cc, environ h !! "CC" = Some cc → cc ≠ "" → determine_compiler h = Some cc)
  ∧ (Str.truthy_opt (environ h !! "CC") = false →
       determine_compiler h
         = first_match [which h "cc"; which h "gcc"; which h "clang"])
  ∧ (Str.truthy_opt (environ h !! "CC") = false →
     Str.truthy_opt (which h "cc") = false →
     Str.truthy_opt (which h "gcc") = false →
     Str.truthy_opt (which h "clang") = false →
       determine_compiler h = None).
Proof.
  assert (Hfirst : determine_compiler h
    = first_match [environ h !! "CC"; which h "cc"; which h "gcc"; which h "clang"]).
  { unfold determine_compiler. simpl.
    repeat (match goal with |- context [Str.truthy_opt ?o] =>
                              destruct (Str.truthy_opt o) end; [done|]).
    done. }
  split; [exact Hfirst|]. rewrite Hfirst. simpl.
  split; [|split].
  - intros cc -> Hne. simpl. by destruct cc.
  - by intros ->.
  - by intros -> -> -> ->.
Qed.

Lemma determine_compiler_first_match_witness :
  determine_compiler CompilerHosts.with_CC = Some "/opt/llvm/bin/clang-17"
  ∧ determine_compiler CompilerHosts.empty_CC = Some "/usr/bin/gcc"
  ∧ determine_compiler CompilerHosts.bare = None.
Proof.
  split; [|split].
  - apply (proj1 (proj2 (determine_compiler_first_match CompilerHosts.with_CC)));
      [reflexivity | discriminate].
  - rewrite (proj1 (proj2 (proj2
      (determine_compiler_first_match CompilerHosts.empty_CC))));
      reflexivity.
  - apply (proj2 (proj2 (proj2
      (determine_compiler_first_match CompilerHosts.bare)))); reflexivity.
Defined.

(** ** Environment variables *)

Lemma _get_from_env_elem h name paths p :
  p ∈ _get_from_env h name paths ↔
  p ∈ paths ∨ ∃ v, environ h !! name = Some v ∧ v ≠ "" ∧ p ∈ split_paths v.
Proof.
  unfold _get_from_env. destruct (environ h !! name) as [v|]; [|naive_solver].
  destruct v as [|c v]; simpl; [naive_solver|].
  rewrite elem_of_union, elem_of_list_to_set. naive_solver.
Qed.

Lemma get_env_include_paths_elem h p :
  p ∈ get_env_include_paths h ↔
  ∃ name v, name ∈ ["YOGRT_INCLUDE_PATH"; "CPATH"; "C_INCLUDE_PATH"]
            ∧ environ h !! name = Some v ∧ v ≠ "" ∧ p ∈ split_paths v.
Proof.
  unfold get_env_include_paths. rewrite !_get_from_env_elem. split.
  - intros [[[[]%elem_of_empty|H]|H]|H]; destruct H as (v & ? & ? & ?);
      eexists _, v; (split; [|done]); set_solver.
  - intros (name & v & Hname & ?). set_unfold in Hname. naive_solver.
Qed.

Lemma get_env_library_paths_elem h p :
  p ∈ get_env_library_paths h ↔
  ∃ name v, name ∈ ["YOGRT_LIBRARY_PATH"; "LIBRARY_PATH"]
            ∧ environ h !! name = Some v ∧ v ≠ "" ∧ p ∈ split_paths v.
Proof.
  unfold get_env_library_paths. rewrite !_get_from_env_elem. split.
  - intros [[[]%elem_of_empty|H]|H]; destruct H as (v & ? & ? & ?);
      eexists _, v; (split; [|done]); set_solver.
  - intros (name & v & Hname & ?). set_unfold in Hname. naive_solver.
Qed.

(** The library path source is a function of the two variables
    [YOGRT_LIBRARY_PATH] and [LIBRARY_PATH] alone. *)
Lemma get_env_library_paths_reads h1 h2 :
  environ h1 !! "YOGRT_LIBRARY_PATH" = environ h2 !! "YOGRT_LIBRARY_PATH" →
  environ h1 !! "LIBRARY_PATH" = environ h2 !! "LIBRARY_PATH" →
  get_env_library_paths h1 = get_env_library_paths h2.
Proof.
  intros H1 H2. unfold get_env_library_paths, _get_from_env.
  by rewrite H1, H2.
Qed.

(** C2: the code does not read [YOGRT_LIB_PATH]. With that variable set to
    the list [/opt/yogrt/lib:/opt/yogrt/lib64] and nothing else, the
    enumerated set is empty, so neither path of the list is in it; the same
    list under the name [YOGRT_LIBRARY_PATH] is read in full. *)
Theorem get_env_library_paths_misses_YOGRT_LIB_PATH :
  environ EnvHosts.lib_path_only !! "YOGRT_LIB_PATH"
    = Some "/opt/yogrt/lib:/opt/yogrt/lib64"
  ∧ get_env_library_paths EnvHosts.lib_path_only = ∅
  ∧ get_env_library_paths EnvHosts.library_path_only
    = {["/opt/yogrt/lib"; "/opt/yogrt/lib64"]}.
Proof. split; [|split]; decide_by_compute. Qed.

(** ** Lines of text *)

(** Cutting at a one-character separator distributes over it. *)
Lemma split_char_app c x y :
  Str.split (String c "") (x +:+ String c y)
  = Str.split (String c "") x ++ Str.split (String c "") y.
Proof.
  unfold Str.split.
  induction x as [|d x IH].
  - change ("" +:+ String c y) with (String c y).
    cbn [Str.split_go Str.startswith]. by rewrite Ascii.eqb_refl.
  - change (String d x +:+ String c y) with (String d (x +:+ String c y)).
    cbn [Str.split_go Str.startswith].
    destruct (Ascii.eqb c d); cbn [String.length Nat.sub]; rewrite IH.
    + done.
    + apply cons_head_app, split_go_nonempty.
Qed.

Lemma split_one_line s : one_line s = true → Str.split newline s = [s].
Proof.
  unfold Str.split, newline. induction s as [|c s IH]; [done|].
  cbn [one_line Str.split_go Str.startswith].
  destruct (Ascii.eqb "010" c); [done|]. simpl. intros H.
  by rewrite (IH H).
Qed.

(** Joining lines and cutting the text again gives the lines back. *)
Lemma split_join_lines l :
  l ≠ [] → Forall (λ s, one_line s = true) l →
  Str.split newline (Str.join newline l) = l.
Proof.
  induction l as [|x l IH]; [done|]. intros _ Hl.
  apply Forall_cons in Hl as [Hx Hl].
  destruct l as [|y l]; [by apply split_one_line|].
  change (Str.join newline (x :: y :: l))
    with (x +:+ String "010" (Str.join newline (y :: l))).
  unfold newline at 1. rewrite split_char_app.
  fold newline. rewrite split_one_line by done. by rewrite IH.
Qed.

(** ** Positions in a list *)

Lemma list_index_first x pre rest :
  x ∉ pre → list_index x (pre ++ x :: rest) = Ok (length pre).
Proof.
  induction pre as [|y pre IH]; intros Hx; simpl.
  - by rewrite decide_True.
  - apply not_elem_of_cons in Hx as [Hne Hx].
    rewrite decide_False by done. by rewrite IH.
Qed.

Lemma list_index_absent x l : x ∉ l → list_index x l = Raise ValueError.
Proof.
  induction l as [|y l IH]; simpl; [done|].
  intros [Hne Hx]%not_elem_of_cons.
  rewrite decide_False by done. by rewrite IH.
Qed.

Lemma list_index_present x l : x ∈ l → ∃ n, list_index x l = Ok n.
Proof.
  induction l as [|y l IH]; simpl; [by intros ?%elem_of_nil|].
  intros Hx. destruct (decide (y = x)); [by eexists|].
  apply elem_of_cons in Hx as [->|Hx]; [done|].
  destruct (IH Hx) as [m ->]. by eexists.
Qed.

Lemma list_index_raises x l e : list_index x l = Raise e → x ∉ l.
Proof.
  intros H Hx. apply list_index_present in Hx as [n Hn]. congruence.
Qed.

Lemma slice_between (pre mid post : list string) a b :
  slice (length pre + 1) (length (pre ++ a :: mid)) (pre ++ [a] ++ mid ++ [b] ++ post)
  = mid.
Proof.
  unfold slice. rewrite length_app. simpl.
  replace (length pre + S (length mid) - (length pre + 1))%nat
    with (length mid) by lia.
  replace (pre ++ a :: mid ++ b :: post) with ((pre ++ [a]) ++ mid ++ b :: post)
    by by rewrite <- app_assoc.
  rewrite drop_app_length'; [|rewrite length_app; simpl; lia].
  by rewrite take_app_length.
Qed.

(** ** Include paths of the preprocessor *)

Lemma parse_include_paths_absent output :
  search_starts ∉ Str.split newline output ∨ search_ends ∉ Str.split newline output →
  parse_include_paths output = ∅.
Proof.
  unfold parse_include_paths. intros [H|H].
  - by rewrite (list_index_absent _ _ H).
  - rewrite (list_index_absent _ _ H). by destruct (list_index search_starts _).
Qed.

(** C6: when the trace has the line [#include <...> search starts here:]
    and, after it, the line [End of search list.], include-path extraction
    returns exactly the trimmed lines strictly between the two (the first
    occurrence of each); when either marker line is absent it returns the
    empty set. The extraction is a total function, so it raises nothing. *)
Theorem parse_include_paths_between (output : string) :
  (∀ pre mid post,
     Str.split newline output
       = pre ++ [search_starts] ++ mid ++ [search_ends] ++ post →
     search_starts ∉ pre → search_ends ∉ pre → search_ends ∉ mid →
     parse_include_paths output = list_to_set (Str.strip <$> mid))
  ∧ (search_starts ∉ Str.split newline output
     ∨ search_ends ∉ Str.split newline output →
     parse_include_paths output = ∅).
Proof.
  split; [|apply parse_include_paths_absent].
  intros pre mid post Hlines Hs He1 He2.
  unfold parse_include_paths. rewrite Hlines. cbn [app].
  rewrite (list_index_first search_starts pre) by done.
  replace (pre ++ search_starts :: mid ++ search_ends :: post)
    with ((pre ++ search_starts :: mid) ++ search_ends :: post)
    by (by rewrite <- app_assoc).
  rewrite (list_index_first search_ends).
  - replace ((pre ++ search_starts :: mid) ++ search_ends :: post)
      with (pre ++ [search_starts] ++ mid ++ [search_ends] ++ post)
      by (by rewrite <- app_assoc).
    rewrite slice_between. by rewrite (left_id_L ∅ (∪)).
  - rewrite elem_of_app, elem_of_cons. intros [?|[?|?]]; done.
Qed.

Lemma parse_include_paths_between_witness :
  parse_include_paths TraceHosts.gcc_trace
  = list_to_set (Str.strip <$>
      [" /usr/lib/gcc/x86_64-linux-gnu/12/include";
       " /usr/local/include";
       " /usr/include"]).
Proof.
  apply (proj1 (parse_include_paths_between TraceHosts.gcc_trace)
           ["ignoring nonexistent directory /usr/include/x86_64-linux-gnu"]
           _
           ["LIBRARY_PATH=/usr/lib/gcc/x86_64-linux-gnu/12/:/lib/:/usr/lib/"; ""]).
  - reflexivity.
  - decide_by_compute.
  - decide_by_compute.
  - decide_by_compute.
Defined.

Example parse_include_paths_gcc :
  parse_include_paths TraceHosts.gcc_trace
  = {["/usr/lib/gcc/x86_64-linux-gnu/12/include"; "/usr/local/include";
      "/usr/include"]}.
Proof. decide_by_compute. Qed.

(** A trace cut off before the end marker, and one whose start marker
    carries a trailing carriage return. *)
Example parse_include_paths_malformed :
  parse_include_paths
    (Str.join newline [search_starts; " /usr/include"]) = ∅
  ∧ parse_include_paths
      (Str.join newline
         [search_starts +:+ String "013" ""; " /usr/include"; search_ends]) = ∅.
Proof. split; decide_by_compute. Qed.

(** The end marker before the start marker: nothing lies between. *)
Lemma parse_include_paths_reversed output pre mid post :
  Str.split newline output
    = pre ++ [search_ends] ++ mid ++ [search_starts] ++ post →
  search_starts ∉ pre → search_ends ∉ pre → search_starts ∉ mid →
  parse_include_paths output = ∅.
Proof.
  intros Hlines Hs He Hm. unfold parse_include_paths. rewrite Hlines. cbn [app].
  rewrite (list_index_first search_ends pre) by done.
  replace (pre ++ search_ends :: mid ++ search_starts :: post)
    with ((pre ++ search_ends :: mid) ++ search_starts :: post)
    by (by rewrite <- app_assoc).
  rewrite (list_index_first search_starts).
  - unfold slice. rewrite length_app. simpl.
    replace (length pre - (length pre + S (length mid) + 1))%nat with 0%nat by lia.
    by rewrite take_0.
  - rewrite elem_of_app, elem_of_cons. intros [?|[?|?]]; done.
Qed.

(** ** The dynamic-linker cache *)

(** The three ways one round of the loop can go. *)
Lemma ldconfig_line_cases line paths :
  (ldconfig_match line = false ∧ ldconfig_line line paths = Ok paths)
  ∨ (ldconfig_match line = true
     ∧ Str.split " => " (Str.strip line) !! 1%nat = None
     ∧ ldconfig_line line paths = Raise IndexError)
  ∨ (∃ path, ldconfig_match line = true
             ∧ Str.split " => " (Str.strip line) !! 1%nat = Some path
             ∧ ldconfig_line line paths = Ok ({[path]} ∪ paths)).
Proof.
  unfold ldconfig_line, ldconfig_match, subscript.
  destruct (Str.startswith "libyogrt.so " (Str.strip line)); [|by left].
  destruct (Str.split " => " (Str.strip line) !! 1%nat) as [path|] eqn:E.
  - right; right. by exists path.
  - right; left. done.
Qed.

Lemma ldconfig_loop_ok lines acc found :
  ldconfig_loop lines acc = Ok found →
  ∀ p, p ∈ found ↔
       p ∈ acc ∨ ∃ line, line ∈ lines ∧ ldconfig_match line = true
                         ∧ Str.split " => " (Str.strip line) !! 1%nat = Some p.
Proof.
  revert acc. induction lines as [|line lines IH]; intros acc; simpl.
  - intros [= <-] p. split; [by left|]. intros [?|(? & []%elem_of_nil & _)]. done.
  - destruct (ldconfig_line_cases line acc)
      as [[Hm ->]|[(Hm & Hs & ->)|(path & Hm & Hs & ->)]]; simpl; [|done|].
    + intros H p. rewrite (IH _ H). split.
      * intros [?|(l & ? & ? & ?)]; [by left|right].
        exists l. split; [by right|done].
      * intros [?|(l & [->|?]%elem_of_cons & ? & ?)]; [by left|congruence|].
        right. by exists l.
    + intros H p. rewrite (IH _ H), elem_of_union, elem_of_singleton. split.
      * intros [[->|?]|(l & ? & ? & ?)]; [right|by left|right].
        -- exists line. split; [left|done].
        -- exists l. split; [by right|done].
      * intros [?|(l & [->|?]%elem_of_cons & ? & ?)]; [by left; right| |].
        -- left; left. congruence.
        -- right. by exists l.
Qed.

Lemma ldconfig_loop_raises lines acc e :
  ldconfig_loop lines acc = Raise e →
  e = IndexError
  ∧ ∃ line, line ∈ lines ∧ ldconfig_match line = true
            ∧ Str.split " => " (Str.strip line) !! 1%nat = None.
Proof.
  revert acc. induction lines as [|line lines IH]; intros acc; simpl; [done|].
  destruct (ldconfig_line_cases line acc)
    as [[Hm ->]|[(Hm & Hs & ->)|(path & Hm & Hs & ->)]]; simpl.
  - intros [-> (l & ? & ? & ?)]%IH. split; [done|]. exists l. split; [by right|done].
  - intros [= <-]. split; [done|]. exists line. split; [left|done].
  - intros [-> (l & ? & ? & ?)]%IH. split; [done|]. exists l. split; [by right|done].
Qed.

Lemma ldconfig_loop_ok_fields lines acc found :
  ldconfig_loop lines acc = Ok found →
  ∀ line, line ∈ lines → ldconfig_match line = true →
          is_Some (Str.split " => " (Str.strip line) !! 1%nat).
Proof.
  revert acc. induction lines as [|x lines IH]; intros acc; simpl.
  - intros _ line []%elem_of_nil.
  - destruct (ldconfig_line_cases x acc)
      as [[Hx ->]|[(Hx & Hxs & ->)|(path & Hx & Hxs & ->)]]; simpl; [|done|].
    + intros Hf line [->|Hin]%elem_of_cons Hm; [congruence|by eapply IH].
    + intros Hf line [->|Hin]%elem_of_cons Hm; [by eexists|by eapply IH].
Qed.

Lemma ldconfig_loop_returns lines acc :
  (∀ line, line ∈ lines → ldconfig_match line = true →
     is_Some (Str.split " => " (Str.strip line) !! 1%nat)) →
  returns (ldconfig_loop lines acc).
Proof.
  intros Hall. destruct (ldconfig_loop lines acc) as [found|e] eqn:E; [by eexists|].
  apply ldconfig_loop_raises in E as [_ (line & Hin & Hm & Hnone)].
  destruct (Hall _ Hin Hm) as [p Hp]. congruence.
Qed.

(** A versioned name never matches the prefix with its trailing space. *)
Lemma versioned_name_no_match rest :
  Str.startswith "libyogrt.so " ("libyogrt.so." +:+ rest) = false.
Proof. done. Qed.

(** Cutting at [ => ] a text in which no [=] occurs leaves it whole. *)
Lemma split_arrow_lacks s :
  lacks "=" s = true → Str.split " => " s = [s].
Proof.
  unfold Str.split. induction s as [|c s IH]; [done|].
  cbn [lacks]. intros [Hc Hs]%andb_prop.
  assert (Hstart : Str.startswith " => " (String c s) = false).
  { cbn [Str.startswith]. destruct (Ascii.eqb " " c); [|done].
    destruct s as [|d s]; [done|]. cbn [lacks] in Hs.
    apply andb_prop in Hs as [Hd _]. by destruct (Ascii.eqb "=" d). }
  cbn [Str.split_go]. rewrite Hstart. by rewrite (IH Hs).
Qed.

(** The first [ => ] after a text in which no [=] occurs is a cut. *)
Lemma split_arrow_app name rest :
  lacks "=" name = true →
  Str.split " => " (name +:+ " => " +:+ rest) = name :: Str.split " => " rest.
Proof.
  unfold Str.split. induction name as [|c name IH]; [done|].
  cbn [lacks]. intros [Hc Hs]%andb_prop.
  change (String c name +:+ " => " +:+ rest)
    with (String c (name +:+ " => " +:+ rest)).
  assert (Hstart : Str.startswith " => " (String c (name +:+ " => " +:+ rest)) = false).
  { cbn [Str.startswith]. destruct (Ascii.eqb " " c); [|done].
    destruct name as [|d name]; [done|]. cbn [lacks] in Hs.
    apply andb_prop in Hs as [Hd _].
    change (String d name +:+ " => " +:+ rest)
      with (String d (name +:+ " => " +:+ rest)).
    cbn [Str.startswith]. by destruct (Ascii.eqb "=" d). }
  cbn [Str.split_go]. rewrite Hstart. by rewrite (IH Hs).
Qed.

Lemma split_arrow_fields info path :
  lacks "=" info = true → lacks "=" path = true →
  Str.split " => " (info +:+ " => " +:+ path) = [info; path].
Proof.
  intros Hi Hp. by rewrite split_arrow_app, split_arrow_lacks.
Qed.

(** C7: the linker-cache source parses what [ldconfig -p] printed. A
    line contributes only when, trimmed, it begins with [libyogrt.so]
    followed by a space; such a line contributes the text between its first
    and second [ => ], which is the path after the separator when no [=]
    occurs elsewhere. So [libyogrt.so.1 => /opt/lib/libyogrt.so.1]
    contributes nothing and [libyogrt.so => /opt/lib/libyogrt.so]
    contributes [/opt/lib/libyogrt.so]; and what the source returns on a
    listing is exactly the set of these contributions. *)
Theorem ldconfig_line_exact_name (h : host) (line : string) (paths : gset string) :
  (Str.startswith "libyogrt.so " (Str.strip line) = false →
     ldconfig_line line paths = Ok paths)
  ∧ (∀ name path rest,
       Str.startswith "libyogrt.so " (Str.strip line) = true →
       Str.split " => " (Str.strip line) = name :: path :: rest →
       ldconfig_line line paths = Ok ({[path]} ∪ paths))
  ∧ (∀ info path,
       Str.strip line = "libyogrt.so " +:+ info +:+ " => " +:+ path →
       lacks "=" info = true → lacks "=" path = true →
       ldconfig_line line paths = Ok ({[path]} ∪ paths))
  ∧ ldconfig_line ldconfig_versioned paths = Ok paths
  ∧ ldconfig_line ldconfig_exact paths = Ok ({["/opt/lib/libyogrt.so"]} ∪ paths)
  ∧ parse_ldconfig (Str.join newline [ldconfig_versioned; ldconfig_exact])
    = Ok {["/opt/lib/libyogrt.so"]}
  ∧ (∀ output,
       run h ldconfig_p = Exited 0 output →
       get_ldconfig_library_paths h = parse_ldconfig output)
  ∧ (∀ output found,
       run h ldconfig_p = Exited 0 output →
       get_ldconfig_library_paths h = Ok found →
       ∀ p, p ∈ found ↔
            ∃ l, l ∈ Str.split newline output
                 ∧ Str.startswith "libyogrt.so " (Str.strip l) = true
                 ∧ Str.split " => " (Str.strip l) !! 1%nat = Some p)
  ∧ (run h ldconfig_p
       = Exited 0 (Str.join newline [ldconfig_versioned; ldconfig_exact]) →
     get_ldconfig_library_paths h = Ok {["/opt/lib/libyogrt.so"]}).
Proof.
  assert (Hrun : ∀ output, run h ldconfig_p = Exited 0 output →
                           get_ldconfig_library_paths h = parse_ldconfig output).
  { intros output Hrun. unfold get_ldconfig_library_paths, check_output.
    by rewrite Hrun. }
  repeat apply conj.
  - intros H. unfold ldconfig_line. by rewrite H.
  - intros name path rest H Hsplit. unfold ldconfig_line.
    by rewrite H, Hsplit.
  - intros info path Hline Hinfo Hpath. unfold ldconfig_line. rewrite Hline.
    rewrite startswith_app.
    change ("libyogrt.so " +:+ info +:+ " => " +:+ path)
      with (("libyogrt.so " +:+ info) +:+ " => " +:+ path).
    by rewrite split_arrow_fields.
  - done.
  - done.
  - decide_by_compute.
  - done.
  - intros output found Hout. rewrite (Hrun _ Hout). unfold parse_ldconfig.
    intros Hfound p. rewrite (ldconfig_loop_ok _ _ _ Hfound p), elem_of_empty.
    unfold ldconfig_match. tauto.
  - intros Hout. rewrite (Hrun _ Hout). decide_by_compute.
Qed.

Lemma ldconfig_line_exact_name_witness :
  ldconfig_line (String "009" "libyogrt.so.1 (libc6,x86-64) => /opt/lib/libyogrt.so.1") ∅
    = Ok ∅
  ∧ ldconfig_line (String "009" "libyogrt.so (libc6,x86-64) => /opt/lib/libyogrt.so") ∅
    = Ok ({["/opt/lib/libyogrt.so"]} ∪ ∅)
  ∧ get_ldconfig_library_paths CacheHosts.cache_only = parse_ldconfig ldconfig_listing
  ∧ get_ldconfig_library_paths CacheHosts.two_lines = Ok {["/opt/lib/libyogrt.so"]}.
Proof.
  repeat apply conj.
  - apply (proj1 (ldconfig_line_exact_name CacheHosts.cache_only _ ∅)). reflexivity.
  - apply (proj1 (proj2 (ldconfig_line_exact_name CacheHosts.cache_only _ ∅))
             "libyogrt.so (libc6,x86-64)" _ []);
      reflexivity.
  - pose proof (ldconfig_line_exact_name CacheHosts.cache_only "" ∅)
      as (_ & _ & _ & _ & _ & _ & Hrun & _).
    apply Hrun. reflexivity.
  - pose proof (ldconfig_line_exact_name CacheHosts.two_lines "" ∅)
      as (_ & _ & _ & _ & _ & _ & _ & _ & Hlisting).
    apply Hlisting. reflexivity.
Defined.

Example parse_ldconfig_listing :
  parse_ldconfig ldconfig_listing = Ok {["/opt/lib/libyogrt.so"]}.
Proof. decide_by_compute. Qed.

(** ** Child processes *)

Lemma determine_compiler_some h compiler :
  determine_compiler h = Some compiler →
  compiler ≠ ""
  ∧ Some compiler
      ∈ [environ h !! "CC"; which h "cc"; which h "gcc"; which h "clang"].
Proof.
  unfold determine_compiler. intros H.
  repeat match type of H with
         | context [Str.truthy_opt ?o] =>
             let E := fresh "E" in
             destruct (Str.truthy_opt o) eqn:E;
             [rewrite H in E; split; [by intros ->|set_solver]|]
         end.
  done.
Qed.

Lemma check_output_exited h p rc out :
  run h p = Exited rc out →
  check_output h p = if decide (rc = 0) then Ok out else Raise (CalledProcessError rc).
Proof.
  intros H. unfold check_output. rewrite H.
  destruct rc; by repeat case_decide.
Qed.

Lemma check_output_not_started h p e :
  run h p = NotStarted e → check_output h p = Raise e.
Proof. intros H. unfold check_output. by rewrite H. Qed.

Lemma determine_preprocessor_exited h compiler rc out :
  run h (print_prog_name compiler) = Exited rc out →
  determine_preprocessor h compiler
  = Ok (if decide (rc = 0) then Some (Str.strip out) else None).
Proof.
  intros H. unfold determine_preprocessor.
  rewrite (check_output_exited _ _ _ _ H). by case_decide.
Qed.

Lemma get_compiler_include_paths_returns h :
  all_start h → returns (get_compiler_include_paths h).
Proof.
  intros Hstart. unfold get_compiler_include_paths.
  destruct (determine_compiler h) as [[|c cc]|]; [by eexists| |by eexists].
  destruct (Hstart (print_prog_name (String c cc))) as (rc & out & Hrun).
  rewrite (determine_preprocessor_exited _ _ _ _ Hrun). simpl.
  destruct (decide (rc = 0)); [|by eexists].
  destruct (Str.strip out) as [|d cpp]; [by eexists|].
  destruct (Hstart (cpp_verbose (String d cpp))) as (rc' & out' & Hrun').
  rewrite (check_output_exited _ _ _ _ Hrun').
  case_decide; by eexists.
Qed.

Lemma get_compiler_include_paths_exited h cc cpp rc out :
  determine_compiler h = Some cc → cc ≠ "" →
  determine_preprocessor h cc = Ok (Some cpp) → cpp ≠ "" →
  run h (cpp_verbose cpp) = Exited rc out →
  get_compiler_include_paths h
  = Ok (if decide (rc = 0) then parse_include_paths out else ∅).
Proof.
  intros Hcc Hne Hcpp Hne' Hrun. unfold get_compiler_include_paths.
  rewrite Hcc. destruct cc; [done|]. rewrite Hcpp. simpl.
  destruct cpp; [done|]. rewrite (check_output_exited _ _ _ _ Hrun).
  by case_decide.
Qed.

Lemma check_output_undecodable h p rc :
  run h p = Undecodable rc → check_output h p = Raise UnicodeDecodeError.
Proof. intros H. unfold check_output. by rewrite H. Qed.

(** The include-path probe once the compiler is known: what the compiler
    answers decides. *)
Lemma get_compiler_include_paths_compiler h cc :
  determine_compiler h = Some cc →
  get_compiler_include_paths h
  = cpp ← determine_preprocessor h cc;
    match cpp with
    | None | Some "" => Ok ∅
    | Some cpp =>
        match check_output h (cpp_verbose cpp) with
        | Raise e => if is_CalledProcessError e then Ok ∅ else Raise e
        | Ok output => Ok (parse_include_paths output)
        end
    end.
Proof.
  intros Hcc. destruct (determine_compiler_some _ _ Hcc) as [Hne _].
  unfold get_compiler_include_paths. rewrite Hcc. by destruct cc.
Qed.

(** C1, as the code has it: a child process that starts, exits and
    prints text, with whatever code and text, never makes the derivation
    of the preprocessor or the parsing of its verbose output raise: a
    non-zero exit gives [None], respectively the empty set; a compiler that
    names no preprocessor gives the empty set; the text of the preprocessor
    is parsed, and without the markers gives the empty set; the
    linker-cache source returns the empty set on a non-zero exit. A process
    that cannot be started (the tool is missing) is not a soft failure: its
    error reaches the caller, and so does the [UnicodeDecodeError] of
    output that is not text. *)
Theorem probes_soft_on_exit (h : host) :
  (∀ compiler rc out,
     run h (print_prog_name compiler) = Exited rc out →
     determine_preprocessor h compiler
     = Ok (if decide (rc = 0) then Some (Str.strip out) else None))
  ∧ (determine_compiler h = None → get_compiler_include_paths h = Ok ∅)
  ∧ (∀ cc rc out,
       determine_compiler h = Some cc →
       run h (print_prog_name cc) = Exited rc out →
       rc ≠ 0 ∨ Str.strip out = "" →
       get_compiler_include_paths h = Ok ∅)
  ∧ (∀ cc out rc' out',
       determine_compiler h = Some cc →
       run h (print_prog_name cc) = Exited 0 out →
       Str.strip out ≠ "" →
       run h (cpp_verbose (Str.strip out)) = Exited rc' out' →
       get_compiler_include_paths h
       = Ok (if decide (rc' = 0) then parse_include_paths out' else ∅))
  ∧ (all_start h → returns (get_compiler_include_paths h))
  ∧ (∀ cc cpp rc out,
       determine_compiler h = Some cc → cc ≠ "" →
       determine_preprocessor h cc = Ok (Some cpp) → cpp ≠ "" →
       run h (cpp_verbose cpp) = Exited rc out →
       get_compiler_include_paths h
       = Ok (if decide (rc = 0) then parse_include_paths out else ∅))
  ∧ (∀ rc out,
       run h ldconfig_p = Exited rc out → rc ≠ 0 →
       get_ldconfig_library_paths h = Ok ∅)
  ∧ (∀ compiler e,
       run h (print_prog_name compiler) = NotStarted e →
       is_CalledProcessError e = false →
       determine_preprocessor h compiler = Raise e)
  ∧ (∀ cc e,
       determine_compiler h = Some cc →
       run h (print_prog_name cc) = NotStarted e →
       is_CalledProcessError e = false →
       get_compiler_include_paths h = Raise e)
  ∧ (∀ cc out e,
       determine_compiler h = Some cc →
       run h (print_prog_name cc) = Exited 0 out →
       Str.strip out ≠ "" →
       run h (cpp_verbose (Str.strip out)) = NotStarted e →
       is_CalledProcessError e = false →
       get_compiler_include_paths h = Raise e)
  ∧ (∀ e,
       run h ldconfig_p = NotStarted e →
       is_CalledProcessError e = false →
       get_ldconfig_library_paths h = Raise e)
  ∧ (∀ compiler rc,
       run h (print_prog_name compiler) = Undecodable rc →
       determine_preprocessor h compiler = Raise UnicodeDecodeError)
  ∧ (∀ cc rc,
       determine_compiler h = Some cc →
       run h (print_prog_name cc) = Undecodable rc →
       get_compiler_include_paths h = Raise UnicodeDecodeError)
  ∧ (∀ cc out rc,
       determine_compiler h = Some cc →
       run h (print_prog_name cc) = Exited 0 out →
       Str.strip out ≠ "" →
       run h (cpp_verbose (Str.strip out)) = Undecodable rc →
       get_compiler_include_paths h = Raise UnicodeDecodeError)
  ∧ (∀ rc,
       run h ldconfig_p = Undecodable rc →
       get_ldconfig_library_paths h = Raise UnicodeDecodeError).
Proof.
  assert (Hcpp : ∀ cc out,
            determine_compiler h = Some cc →
            run h (print_prog_name cc) = Exited 0 out →
            Str.strip out ≠ "" →
            get_compiler_include_paths h
            = match check_output h (cpp_verbose (Str.strip out)) with
              | Raise e => if is_CalledProcessError e then Ok ∅ else Raise e
              | Ok output => Ok (parse_include_paths output)
              end).
  { intros cc out Hcc Hrun Hne.
    rewrite (get_compiler_include_paths_compiler _ _ Hcc).
    rewrite (determine_preprocessor_exited _ _ _ _ Hrun). simpl.
    by destruct (Str.strip out). }
  repeat apply conj.
  - apply determine_preprocessor_exited.
  - intros Hcc. unfold get_compiler_include_paths. by rewrite Hcc.
  - intros cc rc out Hcc Hrun Hor.
    rewrite (get_compiler_include_paths_compiler _ _ Hcc).
    rewrite (determine_preprocessor_exited _ _ _ _ Hrun).
    destruct (decide (rc = 0)) as [->|Hrc]; [|done].
    destruct Hor as [?|Hempty]; [done|]. simpl. by rewrite Hempty.
  - intros cc out rc' out' Hcc Hrun Hne Hrun'.
    rewrite (Hcpp _ _ Hcc Hrun Hne), (check_output_exited _ _ _ _ Hrun').
    by case_decide.
  - apply get_compiler_include_paths_returns.
  - apply get_compiler_include_paths_exited.
  - intros rc out Hrun Hrc. unfold get_ldconfig_library_paths.
    rewrite (check_output_exited _ _ _ _ Hrun). by rewrite decide_False.
  - intros compiler e Hrun He. unfold determine_preprocessor.
    rewrite (check_output_not_started _ _ _ Hrun). by rewrite He.
  - intros cc e Hcc Hrun He.
    rewrite (get_compiler_include_paths_compiler _ _ Hcc).
    unfold determine_preprocessor.
    rewrite (check_output_not_started _ _ _ Hrun). by rewrite He.
  - intros cc out e Hcc Hrun Hne Hrun' He.
    rewrite (Hcpp _ _ Hcc Hrun Hne), (check_output_not_started _ _ _ Hrun').
    by rewrite He.
  - intros e Hrun He. unfold get_ldconfig_library_paths.
    rewrite (check_output_not_started _ _ _ Hrun). by rewrite He.
  - intros compiler rc Hrun. unfold determine_preprocessor.
    by rewrite (check_output_undecodable _ _ _ Hrun).
  - intros cc rc Hcc Hrun.
    rewrite (get_compiler_include_paths_compiler _ _ Hcc).
    unfold determine_preprocessor.
    by rewrite (check_output_undecodable _ _ _ Hrun).
  - intros cc out rc Hcc Hrun Hne Hrun'.
    by rewrite (Hcpp _ _ Hcc Hrun Hne), (check_output_undecodable _ _ _ Hrun').
  - intros rc Hrun. unfold get_ldconfig_library_paths.
    by rewrite (check_output_undecodable _ _ _ Hrun).
Qed.

Lemma probes_soft_on_exit_witness :
  determine_preprocessor ProbeHosts.tools_fail "/usr/bin/cc" = Ok None
  ∧ determine_preprocessor ProbeHosts.odd_trace "/usr/bin/gcc"
    = Ok (Some "/usr/libexec/cpp")
  ∧ get_compiler_include_paths CompilerHosts.bare = Ok ∅
  ∧ get_compiler_include_paths ProbeHosts.tools_fail = Ok ∅
  ∧ get_compiler_include_paths ProbeHosts.silent = Ok ∅
  ∧ get_compiler_include_paths ProbeHosts.odd_trace
    = Ok (if decide (0 = 0)
          then parse_include_paths "cpp: fatal error: no input files" else ∅)
  ∧ get_compiler_include_paths LookupHosts.installed
    = Ok (if decide (0 = 0) then parse_include_paths TraceHosts.gcc_trace else ∅)
  ∧ get_ldconfig_library_paths ProbeHosts.tools_fail = Ok ∅
  ∧ get_compiler_include_paths ProbeHosts.tools_missing = Raise FileNotFoundError
  ∧ get_compiler_include_paths ProbeHosts.no_cpp = Raise FileNotFoundError
  ∧ get_ldconfig_library_paths ProbeHosts.tools_missing = Raise FileNotFoundError
  ∧ get_compiler_include_paths ProbeHosts.garbled = Raise UnicodeDecodeError
  ∧ get_ldconfig_library_paths ProbeHosts.garbled = Raise UnicodeDecodeError.
Proof.
  pose proof (probes_soft_on_exit ProbeHosts.tools_fail)
    as (F1 & _ & F3 & _ & _ & _ & F7 & _).
  pose proof (probes_soft_on_exit ProbeHosts.odd_trace)
    as (O1 & _ & _ & O4 & _).
  pose proof (probes_soft_on_exit CompilerHosts.bare) as (_ & B2 & _).
  pose proof (probes_soft_on_exit ProbeHosts.silent) as (_ & _ & S3 & _).
  pose proof (probes_soft_on_exit LookupHosts.installed) as (_ & _ & _ & I4 & _).
  pose proof (probes_soft_on_exit ProbeHosts.tools_missing)
    as (_ & _ & _ & _ & _ & _ & _ & _ & M9 & _ & M11 & _).
  pose proof (probes_soft_on_exit ProbeHosts.no_cpp)
    as (_ & _ & _ & _ & _ & _ & _ & _ & _ & N10 & _).
  pose proof (probes_soft_on_exit ProbeHosts.garbled)
    as (_ & _ & _ & _ & _ & _ & _ & _ & _ & _ & _ & _ & G13 & _ & G15).
  repeat apply conj.
  - apply (F1 _ 1 ""). reflexivity.
  - apply (O1 _ 0 (" /usr/libexec/cpp" +:+ newline)). reflexivity.
  - apply B2. reflexivity.
  - apply (F3 "/usr/bin/cc" 1 ""); [reflexivity..|]. left. discriminate.
  - apply (S3 "/usr/bin/gcc" 0 newline); [reflexivity..|]. right. reflexivity.
  - apply (O4 "/usr/bin/gcc" (" /usr/libexec/cpp" +:+ newline) 0);
      [reflexivity..|discriminate|reflexivity].
  - apply (I4 "/usr/bin/gcc" ("cpp" +:+ newline) 0);
      [reflexivity..|discriminate|reflexivity].
  - apply (F7 1 ""); [reflexivity|discriminate].
  - apply (M9 "/opt/llvm/bin/clang-17" FileNotFoundError); reflexivity.
  - apply (N10 "/usr/bin/gcc" ("cpp" +:+ newline) FileNotFoundError);
      [reflexivity..|discriminate|reflexivity|reflexivity].
  - apply M11; reflexivity.
  - apply (G13 "/usr/bin/gcc" 0); reflexivity.
  - apply (G15 1). reflexivity.
Defined.

(** C1 fails as stated: with the tool missing, each of the three functions
    raises [FileNotFoundError]. *)
Lemma probes_raise_when_tool_missing :
  determine_preprocessor ProbeHosts.tools_missing "/opt/llvm/bin/clang-17"
    = Raise FileNotFoundError
  ∧ get_compiler_include_paths ProbeHosts.tools_missing = Raise FileNotFoundError
  ∧ get_ldconfig_library_paths ProbeHosts.tools_missing = Raise FileNotFoundError.
Proof. split; [|split]; reflexivity. Qed.

Example get_compiler_include_paths_odd_trace :
  get_compiler_include_paths ProbeHosts.odd_trace = Ok ∅.
Proof. reflexivity. Qed.

(** A matching line of the cache listing without [ => ] has no second
    field: the subscript raises [IndexError], which nothing catches. *)
Example get_ldconfig_library_paths_no_separator :
  get_ldconfig_library_paths ProbeHosts.odd_listing = Raise IndexError.
Proof. reflexivity. Qed.

(** ** Normalization of a path set *)

Section standardize.
Context (h : host).

Lemma elem_of_iter (s : gset string) p : p ∈ iter h s ↔ p ∈ s.
Proof. by rewrite (iter_perm (iter h) s), elem_of_elements. Qed.

Lemma standardize_step_ok path acc q :
  resolve h path = Ok q → standardize_step h path acc = Ok ({[q]} ∪ acc).
Proof. intros H. unfold standardize_step. by rewrite H. Qed.

Lemma standardize_step_missing path acc :
  resolve h path = Raise FileNotFoundError → standardize_step h path acc = Ok acc.
Proof. intros H. unfold standardize_step. by rewrite H. Qed.

Lemma standardize_step_error path acc e :
  resolve h path = Raise e → e ≠ FileNotFoundError →
  standardize_step h path acc = Raise e.
Proof. intros H He. unfold standardize_step. rewrite H. by destruct e. Qed.

(** The three ways one round can go. *)
Lemma standardize_step_cases path acc :
  (∃ q, resolve h path = Ok q ∧ standardize_step h path acc = Ok ({[q]} ∪ acc))
  ∨ (resolve h path = Raise FileNotFoundError ∧ standardize_step h path acc = Ok acc)
  ∨ (∃ e, resolve h path = Raise e ∧ e ≠ FileNotFoundError
          ∧ standardize_step h path acc = Raise e).
Proof.
  destruct (resolve h path) as [q|e] eqn:E.
  - left. eauto using standardize_step_ok.
  - destruct (decide (e = FileNotFoundError)) as [->|He].
    + right; left. eauto using standardize_step_missing.
    + right; right. eauto using standardize_step_error.
Qed.

Lemma standardize_loop_elem l acc resolved :
  standardize_loop h l acc = Ok resolved →
  ∀ q, q ∈ resolved ↔ q ∈ acc ∨ ∃ p, p ∈ l ∧ resolve h p = Ok q.
Proof.
  revert acc. induction l as [|path l IH]; intros acc; simpl.
  - intros [= <-] q. set_solver.
  - destruct (standardize_step_cases path acc)
      as [(q' & Hq' & ->)|[[Hmiss ->]|(e & _ & _ & ->)]]; simpl; [| |done].
    + intros H q. rewrite (IH _ H), elem_of_union, elem_of_singleton.
      split.
      * intros [[->|?]|(p & ? & ?)]; [right|by left|right].
        -- exists path. split; [left|done].
        -- exists p. split; [by right|done].
      * intros [?|(p & [->|?]%elem_of_cons & Hp)]; [by left; right| |by eauto].
        left; left. congruence.
    + intros H q. rewrite (IH _ H). split.
      * intros [?|(p & ? & ?)]; [by left|right].
        exists p. split; [by right|done].
      * intros [?|(p & [->|?]%elem_of_cons & Hp)]; [by left|congruence|by eauto].
Qed.

Lemma standardize_loop_returns l acc :
  (∀ p e, p ∈ l → resolve h p = Raise e → e = FileNotFoundError) →
  returns (standardize_loop h l acc).
Proof.
  revert acc. induction l as [|path l IH]; intros acc Hl; simpl; [by eexists|].
  destruct (standardize_step_cases path acc)
    as [(q' & Hq' & ->)|[[Hmiss ->]|(e & He & Hne & _)]]; simpl.
  - apply IH. intros p e ?. apply Hl. by right.
  - apply IH. intros p e ?. apply Hl. by right.
  - destruct Hne. apply (Hl path); [left|done].
Qed.

Lemma standardize_loop_raises l acc e :
  standardize_loop h l acc = Raise e →
  e ≠ FileNotFoundError ∧ ∃ p, p ∈ l ∧ resolve h p = Raise e.
Proof.
  revert acc. induction l as [|path l IH]; intros acc; simpl; [done|].
  destruct (standardize_step_cases path acc)
    as [(q' & Hq' & ->)|[[Hmiss ->]|(e' & He & Hne & ->)]]; simpl.
  - intros [? (p & ? & ?)]%IH. split; [done|]. exists p. split; [by right|done].
  - intros [? (p & ? & ?)]%IH. split; [done|]. exists p. split; [by right|done].
  - intros [= <-]. split; [done|]. exists path. split; [left|done].
Qed.

Lemma standardize_paths_elem paths resolved :
  standardize_paths h paths = Ok resolved →
  ∀ q, q ∈ resolved ↔ ∃ p, p ∈ paths ∧ resolve h p = Ok q.
Proof.
  intros H q. rewrite (standardize_loop_elem _ _ _ H q).
  setoid_rewrite elem_of_iter. set_solver.
Qed.

Lemma standardize_paths_returns paths :
  (∀ p e, p ∈ paths → resolve h p = Raise e → e = FileNotFoundError) →
  returns (standardize_paths h paths).
Proof.
  intros H. apply standardize_loop_returns.
  intros p e ?%elem_of_iter. by apply H.
Qed.

Lemma standardize_paths_raises paths e :
  standardize_paths h paths = Raise e →
  e ≠ FileNotFoundError ∧ ∃ p, p ∈ paths ∧ resolve h p = Raise e.
Proof.
  intros [? (p & ?%elem_of_iter & ?)]%standardize_loop_raises. eauto.
Qed.

(** A resolved path resolves to itself. *)
Lemma resolve_fixed p q :
  realpath_canonical h → resolve h p = Ok q →
  is_absolute q = true ∧ resolve h q = Ok q.
Proof.
  intros Hcanon. unfold resolve.
  destruct (realpath h (pure_path p)) as [q'|] eqn:E; simpl; [|done].
  destruct (Hcanon _ _ E) as (Habs & Hpure & Hfix).
  rewrite Hpure. intros [= <-]. split; [done|].
  rewrite Hpure, Hfix. simpl. by rewrite Hpure.
Qed.

End standardize.

Lemma standardize_loop_ok_no_error h l acc resolved :
  standardize_loop h l acc = Ok resolved →
  ∀ p e, p ∈ l → resolve h p = Raise e → e = FileNotFoundError.
Proof.
  revert acc. induction l as [|path l IH]; intros acc; simpl.
  - intros _ p e []%elem_of_nil.
  - destruct (standardize_step_cases h path acc)
      as [(q & Hq & ->)|[[Hmiss ->]|(e' & _ & _ & ->)]]; simpl; [| |done].
    + intros H p e [->|Hp]%elem_of_cons He; [congruence|by eapply IH].
    + intros H p e [->|Hp]%elem_of_cons He; [congruence|by eapply IH].
Qed.

Lemma standardize_paths_ok_no_error h paths resolved :
  standardize_paths h paths = Ok resolved →
  ∀ p e, p ∈ paths → resolve h p = Raise e → e = FileNotFoundError.
Proof.
  intros H p e Hp. apply (standardize_loop_ok_no_error _ _ _ _ H).
  by apply elem_of_iter.
Qed.

Lemma assoc_elem {K V} `{EqDecision K} (k : K) (v : V) l :
  Fixture.assoc k l = Some v → (k, v) ∈ l.
Proof.
  induction l as [|[k' v'] l IH]; simpl; [done|].
  case_decide as Hk; [intros [= ->]; subst; left|right; auto].
Qed.

Lemma fixture_realpath_canonical order f :
  Fixture.links_canonical f = true → realpath_canonical (Fixture.to_host order f).
Proof.
  unfold Fixture.links_canonical. rewrite forallb_forall.
  intros Hall p q Hp. unfold canonical. simpl in *.
  destruct (Fixture.assoc p (Fixture.links f)) as [r|] eqn:E; simpl in Hp; [|done].
  subst r. apply assoc_elem, list_elem_of_In, Hall in E.
  apply andb_prop in E as [[Habs Hpure%bool_decide_eq_true]%andb_prop
                             Hfix%bool_decide_eq_true].
  repeat split; [done..|]. by rewrite Hfix.
Qed.

(** C8, as the code has it: whenever normalization returns, normalizing
    its result again returns the same set, and every element of the result
    is absolute and resolves to itself (no symbolic link is left), being the
    resolution of an entry of the input; this on a host whose [realpath]
    returns canonical paths. An entry that does not exist is dropped:
    normalization returns whenever [FileNotFoundError] is the only error the
    entries meet, and never raises it. Another error of resolution (a path
    below a regular file, a missing permission) is not caught: an entry
    that meets one makes normalization raise, and the error raised is such
    an error of an entry, that very error when the entries meet no
    other. *)
Theorem standardize_paths_idempotent (h : host) (paths : gset string) :
  realpath_canonical h →
  (∀ resolved,
     standardize_paths h paths = Ok resolved →
     standardize_paths h resolved = Ok resolved
     ∧ (∀ q, q ∈ resolved → is_absolute q = true ∧ resolve h q = Ok q)
     ∧ (∀ q, q ∈ resolved ↔ ∃ p, p ∈ paths ∧ resolve h p = Ok q))
  ∧ ((∀ p e, p ∈ paths → resolve h p = Raise e → e = FileNotFoundError) →
       returns (standardize_paths h paths))
  ∧ (∀ e, standardize_paths h paths = Raise e →
       e ≠ FileNotFoundError ∧ ∃ p, p ∈ paths ∧ resolve h p = Raise e)
  ∧ (∀ p e, p ∈ paths → resolve h p = Raise e → e ≠ FileNotFoundError →
       ∃ e', standardize_paths h paths = Raise e'
             ∧ e' ≠ FileNotFoundError
             ∧ ∃ p', p' ∈ paths ∧ resolve h p' = Raise e')
  ∧ (∀ p e, p ∈ paths → resolve h p = Raise e → e ≠ FileNotFoundError →
       (∀ p' e', p' ∈ paths → resolve h p' = Raise e' →
                 e' = FileNotFoundError ∨ e' = e) →
       standardize_paths h paths = Raise e).
Proof.
  intros Hcanon.
  assert (Hraise : ∀ p e, p ∈ paths → resolve h p = Raise e → e ≠ FileNotFoundError →
       ∃ e', standardize_paths h paths = Raise e'
             ∧ e' ≠ FileNotFoundError
             ∧ ∃ p', p' ∈ paths ∧ resolve h p' = Raise e').
  { intros p e Hp He Hne.
    destruct (standardize_paths h paths) as [resolved|e'] eqn:E.
    - destruct Hne. by apply (standardize_paths_ok_no_error h _ _ E p).
    - exists e'. split; [done|]. by apply standardize_paths_raises. }
  repeat apply conj.
  - intros resolved H.
    pose proof (standardize_paths_elem h _ _ H) as Helem.
    assert (Hfixed : ∀ q, q ∈ resolved → is_absolute q = true ∧ resolve h q = Ok q).
    { intros q (p & _ & Hp)%Helem. by apply (resolve_fixed h p). }
    split; [|done].
    destruct (standardize_paths_returns h resolved) as [again Hagain].
    { intros p e Hp He. apply Hfixed in Hp as [_ Hp]. congruence. }
    rewrite Hagain. f_equal. apply set_eq. intros q.
    rewrite (standardize_paths_elem h _ _ Hagain). split.
    + intros (p & Hp & Hq). pose proof (Hfixed _ Hp) as [_ Hp']. congruence.
    + intros Hq. exists q. split; [done|]. by apply Hfixed.
  - apply standardize_paths_returns.
  - apply standardize_paths_raises.
  - exact Hraise.
  - intros p e Hp He Hne Hall.
    destruct (Hraise p e Hp He Hne) as (e' & -> & Hne' & p' & Hp' & He').
    by destruct (Hall _ _ Hp' He') as [->| ->].
Qed.

Lemma standardize_paths_idempotent_witness :
  standardize_paths PathHosts.symlinks {["/opt/yogrt/1.35"; "/usr/include"]}
    = Ok {["/opt/yogrt/1.35"; "/usr/include"]}
  ∧ standardize_paths PathHosts.below_a_file {["/etc/passwd/include"; "/usr/include"]}
    = Raise NotADirectoryError.
Proof.
  split.
  - apply (proj1 (standardize_paths_idempotent PathHosts.symlinks
                    {["/opt/yogrt/current"; "/usr/include"; "/usr/local/include"]}
                    (fixture_realpath_canonical _ PathHosts.links_ok eq_refl))).
    decide_by_compute.
  - assert (Hcanon : realpath_canonical PathHosts.below_a_file).
    { unfold PathHosts.below_a_file. apply fixture_realpath_canonical. reflexivity. }
    pose proof (standardize_paths_idempotent PathHosts.below_a_file
                  {["/etc/passwd/include"; "/usr/include"]} Hcanon)
      as (_ & _ & _ & _ & Hraise).
    apply (Hraise "/etc/passwd/include").
    + decide_by_compute.
    + reflexivity.
    + discriminate.
    + intros p' e' Hp'. set_unfold in Hp'.
      destruct Hp' as [Hp'|Hp']; rewrite Hp'; intros [= <-]. by right.
Defined.

(** C8 fails as stated: an entry below a regular file makes normalization
    raise [NotADirectoryError], and with it the whole header lookup. *)
Lemma standardize_paths_raises_NotADirectoryError :
  standardize_paths PathHosts.below_a_file {["/etc/passwd/include"; "/usr/include"]}
    = Raise NotADirectoryError
  ∧ find_yogrt_h PathHosts.below_a_file = Raise NotADirectoryError.
Proof. split; decide_by_compute. Qed.

(** ** Header lookup *)

Lemma search_header_found h l :
  (∃ dir, dir ∈ l ∧ holds h "yogrt.h" dir) →
  ∃ dir, dir ∈ l ∧ holds h "yogrt.h" dir
         ∧ search_header h l = Ok (os_path_join dir "yogrt.h").
Proof.
  induction l as [|path l IH]; intros (dir & Hdir & Hholds).
  - by apply elem_of_nil in Hdir.
  - simpl. destruct (path_exists h (os_path_join path "yogrt.h")) eqn:E.
    + exists path. split; [left|done].
    + destruct IH as (dir' & ? & ? & ?).
      * apply elem_of_cons in Hdir as [->|?]; [|by eauto].
        unfold holds in Hholds. congruence.
      * exists dir'. split; [by right|done].
Qed.

Lemma search_header_not_found h l :
  (¬ ∃ dir, dir ∈ l ∧ holds h "yogrt.h" dir) →
  search_header h l = Raise header_not_found.
Proof.
  induction l as [|path l IH]; intros Hnone; [done|]. simpl.
  destruct (path_exists h (os_path_join path "yogrt.h")) eqn:E.
  - destruct Hnone. exists path. split; [left|done].
  - apply IH. intros (dir & ? & ?). apply Hnone. exists dir. split; [by right|done].
Qed.

Lemma search_header_ok h l header_path :
  search_header h l = Ok header_path →
  ∃ dir, dir ∈ l ∧ header_path = os_path_join dir "yogrt.h"
         ∧ path_exists h header_path = true.
Proof.
  induction l as [|path l IH]; [done|]. simpl.
  destruct (path_exists h (os_path_join path "yogrt.h")) eqn:E.
  - intros [= <-]. exists path. split; [left|done].
  - intros (dir & ? & ? & ?)%IH. exists dir. split; [by right|done].
Qed.

Lemma find_yogrt_h_unfold h paths resolved :
  include_paths h = Ok paths → standardize_paths h paths = Ok resolved →
  find_yogrt_h h = search_header h (iter h resolved).
Proof. intros H1 H2. unfold find_yogrt_h. rewrite H1. simpl. by rewrite H2. Qed.

(** C3: over the merged, normalized include-path set, header lookup
    returns [<dir>/yogrt.h] for a directory of the set that holds the
    header, a path that exists, whenever some directory of the set holds
    it; it raises "Could not find yogrt.h" if and only if no directory of
    the set holds it; and it returns nothing else. *)
Theorem find_yogrt_h_lookup (h : host) (paths resolved : gset string) :
  include_paths h = Ok paths →
  standardize_paths h paths = Ok resolved →
  ((∃ dir, dir ∈ resolved ∧ holds h "yogrt.h" dir) →
     ∃ dir, dir ∈ resolved ∧ holds h "yogrt.h" dir
            ∧ find_yogrt_h h = Ok (os_path_join dir "yogrt.h")
            ∧ path_exists h (os_path_join dir "yogrt.h") = true)
  ∧ (find_yogrt_h h = Raise header_not_found
     ↔ ¬ ∃ dir, dir ∈ resolved ∧ holds h "yogrt.h" dir)
  ∧ (∀ header_path, find_yogrt_h h = Ok header_path →
       ∃ dir, dir ∈ resolved ∧ header_path = os_path_join dir "yogrt.h"
              ∧ path_exists h header_path = true).
Proof.
  intros Hpaths Hresolved.
  rewrite (find_yogrt_h_unfold h _ _ Hpaths Hresolved).
  assert (Hiter : (∃ dir, dir ∈ resolved ∧ holds h "yogrt.h" dir)
                  ↔ (∃ dir, dir ∈ iter h resolved ∧ holds h "yogrt.h" dir)).
  { by setoid_rewrite elem_of_iter. }
  split; [|split].
  - intros (dir & Hdir & Hholds & Hfound)%Hiter%search_header_found.
    exists dir. by apply elem_of_iter in Hdir.
  - split.
    + intros Hraise (dir & ? & ? & Hfound)%Hiter%search_header_found. congruence.
    + intros Hnone. apply search_header_not_found. by rewrite <- Hiter.
  - intros header_path Hfound.
    apply search_header_ok in Hfound as (dir & Hdir%elem_of_iter & -> & ?).
    by exists dir.
Qed.

Lemma find_yogrt_h_lookup_witness :
  find_yogrt_h LookupHosts.not_installed = Raise header_not_found
  ∧ ∃ dir, dir ∈ LookupHosts.include_dirs
    ∧ find_yogrt_h LookupHosts.installed_reversed = Ok (os_path_join dir "yogrt.h")
    ∧ path_exists LookupHosts.installed_reversed (os_path_join dir "yogrt.h") = true.
Proof.
  split.
  - assert (H1 : include_paths LookupHosts.not_installed = Ok LookupHosts.include_set)
      by decide_by_compute.
    assert (H2 : standardize_paths LookupHosts.not_installed LookupHosts.include_set
                 = Ok {["/usr/include"]})
      by decide_by_compute.
    apply (proj2 (proj1 (proj2 (find_yogrt_h_lookup _ _ _ H1 H2)))).
    intros (dir & ->%elem_of_singleton & Hholds). discriminate Hholds.
  - assert (H1 : include_paths LookupHosts.installed_reversed = Ok LookupHosts.include_set)
      by decide_by_compute.
    assert (H2 : standardize_paths LookupHosts.installed_reversed LookupHosts.include_set
                 = Ok LookupHosts.include_dirs)
      by decide_by_compute.
    destruct (proj1 (find_yogrt_h_lookup _ _ _ H1 H2)) as (dir & ? & _ & ? & ?).
    + exists "/opt/yogrt/include". split; [decide_by_compute|reflexivity].
    + exists dir. repeat split; assumption.
Defined.

Example find_yogrt_h_scenario :
  find_yogrt_h LookupHosts.installed = Ok "/opt/yogrt/include/yogrt.h"
  ∧ find_yogrt_h LookupHosts.installed_reversed = Ok "/opt/yogrt/include/yogrt.h".
Proof. split; decide_by_compute. Qed.

(** ** Library lookup *)

Lemma select_libyogrt_elem h l dir :
  dir ∈ select_libyogrt h l ↔ dir ∈ l ∧ holds h "libyogrt.so" dir.
Proof.
  unfold select_libyogrt.
  assert (Hacc : ∀ acc : gset string,
    dir ∈ foldl (λ found path,
                   if path_exists h (os_path_join path "libyogrt.so")
                   then {[path]} ∪ found else found) acc l
    ↔ dir ∈ acc ∨ (dir ∈ l ∧ holds h "libyogrt.so" dir)).
  { induction l as [|path l IH]; intros acc; simpl.
    - rewrite elem_of_nil. tauto.
    - rewrite IH, elem_of_cons. unfold holds.
      destruct (path_exists h (os_path_join path "libyogrt.so")) eqn:E.
      + rewrite elem_of_union, elem_of_singleton. split.
        * intros [[->|?]|[? ?]]; auto.
        * intros [?|[[->|?] ?]]; auto.
      + split; [tauto|]. intros [?|[[->|?] ?]]; auto. congruence. }
  rewrite Hacc, elem_of_empty. tauto.
Qed.

(** The loop keeps the directories that hold the library, whatever the
    order of the visit. *)
Lemma select_libyogrt_filter h (resolved : gset string) :
  select_libyogrt h (iter h resolved) = filter (holds h "libyogrt.so") resolved.
Proof.
  apply set_eq. intros dir.
  rewrite select_libyogrt_elem, elem_of_filter, elem_of_iter. tauto.
Qed.

Lemma find_yogrt_lib_unfold h paths resolved :
  library_paths h = Ok paths → standardize_paths h paths = Ok resolved →
  find_yogrt_lib h
  = if decide (filter (holds h "libyogrt.so") resolved = ∅)
    then Raise library_not_found
    else Ok (filter (holds h "libyogrt.so") resolved).
Proof.
  intros H1 H2. unfold find_yogrt_lib. rewrite H1. simpl. rewrite H2. simpl.
  by rewrite select_libyogrt_filter.
Qed.

Lemma find_yogrt_lib_ok h paths resolved found :
  library_paths h = Ok paths → standardize_paths h paths = Ok resolved →
  find_yogrt_lib h = Ok found →
  found ≠ ∅ ∧ ∀ dir, dir ∈ found ↔ dir ∈ resolved ∧ holds h "libyogrt.so" dir.
Proof.
  intros Hpaths Hresolved.
  rewrite (find_yogrt_lib_unfold h _ _ Hpaths Hresolved).
  case_decide; [done|]. intros [= <-]. split; [done|]. intros dir.
  rewrite elem_of_filter. tauto.
Qed.

(** C4: library lookup keeps exactly the directories of the merged,
    normalized library-path set that hold [libyogrt.so] and returns all of
    them; it raises "Could not find libyogrt.so" if and only if none of them
    holds it. *)
Theorem find_yogrt_lib_lookup (h : host) (paths resolved : gset string) :
  library_paths h = Ok paths →
  standardize_paths h paths = Ok resolved →
  (filter (holds h "libyogrt.so") resolved ≠ ∅ →
     find_yogrt_lib h = Ok (filter (holds h "libyogrt.so") resolved))
  ∧ (find_yogrt_lib h = Raise library_not_found
     ↔ filter (holds h "libyogrt.so") resolved = ∅)
  ∧ (∀ found, find_yogrt_lib h = Ok found →
       found ≠ ∅
       ∧ ∀ dir, dir ∈ found ↔ dir ∈ resolved ∧ holds h "libyogrt.so" dir).
Proof.
  intros Hpaths Hresolved.
  rewrite (find_yogrt_lib_unfold h _ _ Hpaths Hresolved).
  destruct (decide (filter (holds h "libyogrt.so") resolved = ∅)) as [Hnone|Hsome].
  - split; [done|]. split; [done|]. intros found [=].
  - split; [done|]. split; [split; [done|by intros ?]|].
    intros found [= <-]. split; [done|]. intros dir.
    rewrite elem_of_filter. tauto.
Qed.

Lemma find_yogrt_lib_lookup_witness :
  find_yogrt_lib LookupHosts.installed
  = Ok (filter (holds LookupHosts.installed "libyogrt.so") LibraryHosts.library_dirs).
Proof.
  assert (H1 : library_paths LookupHosts.installed = Ok LibraryHosts.library_set)
    by decide_by_compute.
  assert (H2 : standardize_paths LookupHosts.installed LibraryHosts.library_set
               = Ok LibraryHosts.library_dirs)
    by decide_by_compute.
  apply (proj1 (find_yogrt_lib_lookup _ _ _ H1 H2)).
  decide_by_compute.
Defined.

Example find_yogrt_lib_scenario :
  find_yogrt_lib LookupHosts.installed = Ok {["/opt/yogrt/lib"]}
  ∧ find_yogrt_lib LookupHosts.installed_reversed = Ok {["/opt/yogrt/lib"]}
  ∧ find_yogrt_lib LookupHosts.not_installed = Raise library_not_found.
Proof. split; [|split]; decide_by_compute. Qed.

(** ** What the search sets are made of *)

Lemma include_paths_elem h paths :
  include_paths h = Ok paths →
  ∃ compiler_paths,
    get_compiler_include_paths h = Ok compiler_paths
    ∧ ∀ p, p ∈ paths ↔ p ∈ get_env_include_paths h ∨ p ∈ compiler_paths
                        ∨ p ∈ system_include_dirs.
Proof.
  unfold include_paths.
  destruct (get_compiler_include_paths h) as [compiler_paths|]; simpl; [|done].
  intros [= <-]. exists compiler_paths. split; [done|].
  intros p. unfold system_include_dirs. set_solver.
Qed.

Lemma library_paths_elem h paths :
  library_paths h = Ok paths →
  ∃ compiler_paths cache,
    get_compiler_library_paths h = Ok compiler_paths
    ∧ get_ldconfig_library_paths h = Ok cache
    ∧ ∀ p, p ∈ paths ↔ p ∈ get_env_library_paths h ∨ p ∈ compiler_paths
                        ∨ p ∈ cache ∨ p ∈ system_library_dirs.
Proof.
  unfold library_paths.
  destruct (get_compiler_library_paths h) as [compiler_paths|]; simpl; [|done].
  destruct (get_ldconfig_library_paths h) as [cache|]; simpl; [|done].
  intros [= <-]. exists compiler_paths, cache. split; [done|]. split; [done|].
  intros p. unfold system_library_dirs. set_solver.
Qed.

(** ** Empty segments *)

Lemma resolve_empty h cwd :
  realpath h "." = Ok cwd → pure_path cwd = cwd → resolve h "" = Ok cwd.
Proof.
  intros Hcwd Hpure. unfold resolve.
  change (pure_path "") with ".". rewrite Hcwd. simpl. by rewrite Hpure.
Qed.

(** C9: an empty segment of a colon-separated variable (a leading, a
    trailing or a doubled colon) gives the empty string as a path entry;
    normalization resolves the empty string to the working directory and
    keeps it, so the working directory is in the normalized include set,
    respectively library set, whenever the variable is one the source
    reads. *)
Theorem empty_segment_adds_cwd (h : host) (name v cwd : string) :
  environ h !! name = Some v →
  has_empty_segment v →
  realpath h "." = Ok cwd →
  pure_path cwd = cwd →
  "" ∈ split_paths v
  ∧ resolve h "" = Ok cwd
  ∧ (name ∈ ["YOGRT_INCLUDE_PATH"; "CPATH"; "C_INCLUDE_PATH"] →
       "" ∈ get_env_include_paths h
       ∧ ∀ paths resolved,
           include_paths h = Ok paths →
           standardize_paths h paths = Ok resolved →
           cwd ∈ resolved)
  ∧ (name ∈ ["YOGRT_LIBRARY_PATH"; "LIBRARY_PATH"] →
       "" ∈ get_env_library_paths h
       ∧ ∀ paths resolved,
           library_paths h = Ok paths →
           standardize_paths h paths = Ok resolved →
           cwd ∈ resolved).
Proof.
  intros Henv Hseg Hcwd Hpure.
  pose proof (empty_segment_split _ Hseg) as Hsplit.
  pose proof (resolve_empty _ _ Hcwd Hpure) as Hresolve.
  assert (Hne : v ≠ "").
  { intros ->. by apply empty_segment_truthy in Hseg. }
  split; [done|]. split; [done|]. split.
  - intros Hname.
    assert (Hin : "" ∈ get_env_include_paths h).
    { apply get_env_include_paths_elem. by exists name, v. }
    split; [done|]. intros paths resolved Hpaths Hresolved.
    apply (standardize_paths_elem h _ _ Hresolved). exists "". split; [|done].
    destruct (include_paths_elem _ _ Hpaths) as (C & _ & Helem).
    apply Helem. by left.
  - intros Hname.
    assert (Hin : "" ∈ get_env_library_paths h).
    { apply get_env_library_paths_elem. by exists name, v. }
    split; [done|]. intros paths resolved Hpaths Hresolved.
    apply (standardize_paths_elem h _ _ Hresolved). exists "". split; [|done].
    destruct (library_paths_elem _ _ Hpaths) as (C & L & _ & _ & Helem).
    apply Helem. by left.
Qed.

Lemma empty_segment_adds_cwd_witness :
  split_paths "/a:" = ["/a"; ""]
  ∧ "" ∈ get_env_include_paths CwdHosts.build_dir
  ∧ resolve CwdHosts.build_dir "" = Ok "/home/user/build"
  ∧ "/home/user/build" ∈ ({["/home/user/build"; "/usr/include"]} : gset string).
Proof.
  assert (Hseg : has_empty_segment "/a:").
  { right; left. by exists "/a". }
  destruct (empty_segment_adds_cwd CwdHosts.build_dir "CPATH" "/a:" "/home/user/build"
              eq_refl Hseg eq_refl eq_refl) as (_ & Hresolve & Hinc & _).
  destruct Hinc as [Hin Hcwd].
  { apply elem_of_cons. right. apply elem_of_cons. by left. }
  split; [reflexivity|]. split; [exact Hin|]. split; [exact Hresolve|].
  apply (Hcwd {["/a"; ""; "/usr/include"; "/usr/local/include"]}).
  - decide_by_compute.
  - decide_by_compute.
Defined.

(** With such a variable the lookups find the stray files of the working
    directory. *)
Example find_in_working_directory :
  find_yogrt_h CwdHosts.build_dir = Ok "/home/user/build/yogrt.h"
  ∧ find_yogrt_lib CwdHosts.build_dir = Ok {["/home/user/build"]}.
Proof. split; decide_by_compute. Qed.

(** ** Entries of the linker cache in the library lookup *)

(** C10: the linker-cache source puts into the search set what the
    listing of [ldconfig -p] names after [ => ], the path of the library
    file, not its directory. On a host where the listing names files there
    and only directories hold files, each entry of the source is such a
    path, its resolution is in the normalized set and fails the test for
    [<entry>/libyogrt.so]; so no entry of the cache is in the result of the
    library lookup, and every directory of the result was named by an
    environment variable, by the preprocessor trace or by the fixed system
    directories. *)
Theorem ldconfig_entries_never_selected (h : host) (output : string)
    (paths resolved : gset string) :
  run h ldconfig_p = Exited 0 output →
  (∀ line path file,
     line ∈ Str.split newline output →
     Str.startswith "libyogrt.so " (Str.strip line) = true →
     Str.split " => " (Str.strip line) !! 1%nat = Some path →
     resolve h path = Ok file →
     path_isdir h file = false) →
  library_paths h = Ok paths →
  standardize_paths h paths = Ok resolved →
  (∀ dir, dir ∈ resolved → holds h "libyogrt.so" dir → path_isdir h dir = true) →
  ldconfig_line ldconfig_exact ∅ = Ok ({["/opt/lib/libyogrt.so"]} ∪ ∅)
  ∧ ∃ cache,
      get_ldconfig_library_paths h = Ok cache
      ∧ (∀ entry, entry ∈ cache ↔
           ∃ line, line ∈ Str.split newline output
                   ∧ Str.startswith "libyogrt.so " (Str.strip line) = true
                   ∧ Str.split " => " (Str.strip line) !! 1%nat = Some entry)
      ∧ cache ⊆ paths
      ∧ (∀ entry file, entry ∈ cache → resolve h entry = Ok file →
           file ∈ resolved ∧ ¬ holds h "libyogrt.so" file)
      ∧ (∀ found, find_yogrt_lib h = Ok found →
           (∀ entry file, entry ∈ cache → resolve h entry = Ok file →
              file ∉ found)
           ∧ (∀ dir, dir ∈ found →
                ∃ p, resolve h p = Ok dir
                     ∧ (p ∈ get_env_library_paths h ∨ p ∈ system_library_dirs
                        ∨ ∃ compiler_paths,
                            get_compiler_library_paths h = Ok compiler_paths
                            ∧ p ∈ compiler_paths))).
Proof.
  intros Hrun Hlisting Hpaths Hresolved Hdirs.
  destruct (library_paths_elem _ _ Hpaths) as (C & cache & HC & HL & Helem).
  assert (Hparse : parse_ldconfig output = Ok cache).
  { revert HL. unfold get_ldconfig_library_paths, check_output. by rewrite Hrun. }
  assert (Hcache : ∀ entry, entry ∈ cache ↔
           ∃ line, line ∈ Str.split newline output
                   ∧ Str.startswith "libyogrt.so " (Str.strip line) = true
                   ∧ Str.split " => " (Str.strip line) !! 1%nat = Some entry).
  { intros entry. unfold parse_ldconfig in Hparse.
    rewrite (ldconfig_loop_ok _ _ _ Hparse entry), elem_of_empty.
    unfold ldconfig_match. tauto. }
  pose proof (standardize_paths_elem h _ _ Hresolved) as Hres.
  assert (Hsub : cache ⊆ paths).
  { intros p Hp. apply Helem. auto. }
  assert (Hentry : ∀ entry file, entry ∈ cache → resolve h entry = Ok file →
                     file ∈ resolved ∧ ¬ holds h "libyogrt.so" file).
  { intros entry file Hin Hfile.
    assert (file ∈ resolved) as Hfr by (apply Hres; eauto).
    split; [done|]. intros Hholds.
    pose proof (Hdirs _ Hfr Hholds) as Hdir.
    apply Hcache in Hin as (line & Hline & Hm & Hfield).
    pose proof (Hlisting _ _ _ Hline Hm Hfield Hfile). congruence. }
  split; [done|]. exists cache.
  split; [done|]. split; [done|]. split; [done|]. split; [done|].
  intros found Hfound.
  destruct (find_yogrt_lib_ok h _ _ _ Hpaths Hresolved Hfound) as [_ Hfilter].
  split.
  - intros entry file Hin Hfile [_ Hholds]%Hfilter.
    by destruct (Hentry _ _ Hin Hfile).
  - intros dir [(p & Hp & Hdir)%Hres Hholds]%Hfilter.
    exists p. split; [done|].
    apply Helem in Hp as [?|[?|[Hp|?]]]; [by left|by eauto|..|by auto].
    by destruct (Hentry _ _ Hp Hdir).
Qed.

Lemma ldconfig_entries_never_selected_witness :
  ∃ cache,
    get_ldconfig_library_paths LookupHosts.installed = Ok cache
    ∧ cache ⊆ LibraryHosts.library_set
    ∧ ∀ entry file,
        entry ∈ cache → resolve LookupHosts.installed entry = Ok file →
        file ∈ LibraryHosts.library_dirs
        ∧ ¬ holds LookupHosts.installed "libyogrt.so" file.
Proof.
  assert (H1 : library_paths LookupHosts.installed = Ok LibraryHosts.library_set)
    by decide_by_compute.
  assert (H2 : standardize_paths LookupHosts.installed LibraryHosts.library_set
               = Ok LibraryHosts.library_dirs)
    by decide_by_compute.
  assert (Hlisting : ∀ line path file,
     line ∈ Str.split newline
       (String "009" "libyogrt.so (libc6,x86-64) => /opt/yogrt/lib/libyogrt.so") →
     Str.startswith "libyogrt.so " (Str.strip line) = true →
     Str.split " => " (Str.strip line) !! 1%nat = Some path →
     resolve LookupHosts.installed path = Ok file →
     path_isdir LookupHosts.installed file = false).
  { intros line path file Hin Hm Hfield Hfile. vm_compute in Hin.
    apply elem_of_cons in Hin as [Hline|Hin];
      [|apply elem_of_nil in Hin; destruct Hin].
    rewrite Hline in Hfield. clear Hm Hline.
    vm_compute in Hfield. injection Hfield as Hpath.
    rewrite <- Hpath in Hfile. clear Hpath.
    vm_compute in Hfile. injection Hfile as Hfile.
    rewrite <- Hfile. reflexivity. }
  assert (Hdirs : ∀ dir, dir ∈ LibraryHosts.library_dirs →
     holds LookupHosts.installed "libyogrt.so" dir →
     path_isdir LookupHosts.installed dir = true).
  { intros dir Hdir Hholds. unfold LibraryHosts.library_dirs in Hdir.
    set_unfold in Hdir.
    destruct Hdir as [[Hdir|Hdir]|Hdir]; rewrite Hdir in Hholds |- *;
      first [reflexivity | discriminate Hholds]. }
  destruct (ldconfig_entries_never_selected LookupHosts.installed _ _ _
              eq_refl Hlisting H1 H2 Hdirs)
    as (_ & cache & Hcache & _ & Hsub & Hentry & _).
  exists cache. split; [exact Hcache|]. split; [exact Hsub|exact Hentry].
Defined.

(** A library that only the linker cache knows is not found. *)
Example find_yogrt_lib_cache_only :
  get_ldconfig_library_paths CacheHosts.cache_only = Ok {["/opt/lib/libyogrt.so"]}
  ∧ path_exists CacheHosts.cache_only "/opt/lib/libyogrt.so" = true
  ∧ find_yogrt_lib CacheHosts.cache_only = Raise library_not_found.
Proof. split; [|split]; decide_by_compute. Qed.

(** * Further properties of the discovery procedure *)

(** ** Colon-separated lists *)

Lemma join_cons_head sep c l :
  l ≠ [] → Str.join sep (Str.cons_head c l) = String c (Str.join sep l).
Proof. destruct l as [|x [|y l]]; done. Qed.

Lemma join_split_char c s :
  Str.join (String c "") (Str.split (String c "") s) = s.
Proof.
  unfold Str.split. induction s as [|d s IH]; [done|].
  cbn [Str.split_go Str.startswith].
  destruct (Ascii.eqb c d) eqn:E; cbn [String.length Nat.sub].
  - apply Ascii.eqb_eq in E as <-.
    pose proof (split_go_nonempty (String c "") 0 s) as Hne.
    destruct (Str.split_go (String c "") 0 s) as [|x l] eqn:El; [done|].
    change (Str.join (String c "") ("" :: x :: l))
      with (String c (Str.join (String c "") (x :: l))).
    by rewrite IH.
  - rewrite join_cons_head by apply split_go_nonempty. by rewrite IH.
Qed.

Lemma split_lacks c s :
  lacks c s = true → Str.split (String c "") s = [s].
Proof.
  unfold Str.split. induction s as [|d s IH]; [done|].
  cbn [lacks Str.split_go Str.startswith].
  destruct (Ascii.eqb c d); [done|]. simpl. intros H. by rewrite (IH H).
Qed.

Lemma split_join_char c l :
  l ≠ [] → Forall (λ s, lacks c s = true) l →
  Str.split (String c "") (Str.join (String c "") l) = l.
Proof.
  induction l as [|x l IH]; [done|]. intros _ Hl.
  apply Forall_cons in Hl as [Hx Hl].
  destruct l as [|y l]; [by apply split_lacks|].
  change (Str.join (String c "") (x :: y :: l))
    with (x +:+ String c (Str.join (String c "") (y :: l))).
  rewrite split_char_app, split_lacks by done. by rewrite IH.
Qed.

(** X1: [split_paths] and joining with colons are inverse to each other:
    joining the segments of any string gives the string back, and cutting
    the join of a non-empty list of colon-free segments gives the list
    back. In particular [split_paths] loses nothing and never returns the
    empty list. *)
Theorem split_paths_join_roundtrip :
  (∀ paths, Str.join ":" (split_paths paths) = paths)
  ∧ (∀ l, l ≠ [] → Forall (λ p, lacks ":" p = true) l →
       split_paths (Str.join ":" l) = l)
  ∧ (∀ paths, split_paths paths ≠ []).
Proof.
  split; [|split].
  - intros paths. apply join_split_char.
  - intros l. apply split_join_char.
  - intros paths. apply split_go_nonempty.
Qed.

Lemma split_paths_join_roundtrip_witness :
  split_paths (Str.join ":" ["/opt/yogrt/lib"; ""; "/usr/lib"])
  = ["/opt/yogrt/lib"; ""; "/usr/lib"].
Proof.
  apply (proj1 (proj2 split_paths_join_roundtrip)); [discriminate|].
  repeat constructor.
Defined.

(** ** The environment source of include paths *)

(** X2: the environment source of include paths holds exactly the
    colon-separated segments of [YOGRT_INCLUDE_PATH], [CPATH] and
    [C_INCLUDE_PATH], of those that are set and not empty; when none is,
    the source is empty. No other variable is read. *)
Theorem get_env_include_paths_exact (h : host) :
  (∀ p, p ∈ get_env_include_paths h ↔
        ∃ name v, name ∈ ["YOGRT_INCLUDE_PATH"; "CPATH"; "C_INCLUDE_PATH"]
                  ∧ environ h !! name = Some v ∧ v ≠ "" ∧ p ∈ split_paths v)
  ∧ ((∀ name, name ∈ ["YOGRT_INCLUDE_PATH"; "CPATH"; "C_INCLUDE_PATH"] →
        environ h !! name = None ∨ environ h !! name = Some "") →
     get_env_include_paths h = ∅)
  ∧ (∀ h', (∀ name, name ∈ ["YOGRT_INCLUDE_PATH"; "CPATH"; "C_INCLUDE_PATH"] →
              environ h' !! name = environ h !! name) →
           get_env_include_paths h' = get_env_include_paths h).
Proof.
  split; [apply get_env_include_paths_elem|]. split.
  - intros Hnone. apply set_eq. intros p.
    rewrite get_env_include_paths_elem, elem_of_empty. split; [|done].
    intros (name & v & Hname & Hv & Hne & _).
    destruct (Hnone _ Hname); congruence.
  - intros h' Hsame. unfold get_env_include_paths, _get_from_env.
    rewrite !Hsame; [done|set_solver..].
Qed.

Lemma get_env_include_paths_exact_witness :
  get_env_include_paths LookupHosts.not_installed
  = get_env_include_paths LookupHosts.installed
  ∧ get_env_include_paths CompilerHosts.bare = ∅.
Proof.
  split.
  - apply (proj2 (proj2 (get_env_include_paths_exact LookupHosts.installed))).
    intros name _. reflexivity.
  - apply (proj1 (proj2 (get_env_include_paths_exact CompilerHosts.bare))).
    intros name _. left. reflexivity.
Defined.

(** ** Library paths of the preprocessor *)

Lemma parse_library_paths_fold (l : list string) (acc : gset string) p :
  p ∈ foldl (λ paths line,
               if Str.startswith library_path_prefix line
               then paths ∪ list_to_set
                      (split_paths (Str.drop (String.length library_path_prefix) line))
               else paths) acc l
  ↔ p ∈ acc ∨ ∃ line, line ∈ l ∧ Str.startswith library_path_prefix line = true
                      ∧ p ∈ split_paths (Str.drop 13 line).
Proof.
  revert acc. induction l as [|x l IH]; intros acc; cbn [foldl].
  - split; [by left|]. intros [?|(? & []%elem_of_nil & _)]. done.
  - destruct (Str.startswith library_path_prefix x) eqn:E; rewrite IH.
    + rewrite elem_of_union, elem_of_list_to_set. split.
      * intros [[?|?]|(line & ? & ? & ?)]; [by left|right..].
        -- exists x. split; [left|done].
        -- exists line. split; [by right|done].
      * intros [?|(line & [->|?]%elem_of_cons & ? & ?)]; [by left; left|by left; right|].
        right. by exists line.
    + split.
      * intros [?|(line & ? & ? & ?)]; [by left|right].
        exists line. split; [by right|done].
      * intros [?|(line & [->|?]%elem_of_cons & ? & ?)]; [by left|congruence|].
        right. by exists line.
Qed.

(** X3: the library paths read from the preprocessor trace are exactly
    the colon-separated segments of what follows [LIBRARY_PATH=] on the
    lines that begin with it. The prefix is looked for at the very start of
    the untrimmed line, so a trace without such a line gives the empty
    set. *)
Theorem parse_library_paths_exact (output : string) :
  (∀ p, p ∈ parse_library_paths output ↔
        ∃ line, line ∈ Str.split newline output
                ∧ Str.startswith "LIBRARY_PATH=" line = true
                ∧ p ∈ split_paths (Str.drop 13 line))
  ∧ ((∀ line, line ∈ Str.split newline output →
        Str.startswith "LIBRARY_PATH=" line = false) →
     parse_library_paths output = ∅)
  ∧ (∀ dirs, lacks "010" dirs = true →
       parse_library_paths ("LIBRARY_PATH=" +:+ dirs) = list_to_set (split_paths dirs)
       ∧ parse_library_paths (" LIBRARY_PATH=" +:+ dirs) = ∅).
Proof.
  assert (Helem : ∀ p, p ∈ parse_library_paths output ↔
        ∃ line, line ∈ Str.split newline output
                ∧ Str.startswith "LIBRARY_PATH=" line = true
                ∧ p ∈ split_paths (Str.drop 13 line)).
  { intros p. unfold parse_library_paths. rewrite parse_library_paths_fold.
    rewrite elem_of_empty. unfold library_path_prefix. tauto. }
  split; [done|]. split.
  - intros Hnone. apply set_eq. intros p. rewrite Helem, elem_of_empty.
    split; [|done]. intros (line & Hline & Hstart & _).
    rewrite (Hnone _ Hline) in Hstart. done.
  - intros dirs E. unfold parse_library_paths.
    assert (H1 : lacks "010" ("LIBRARY_PATH=" +:+ dirs) = true) by done.
    assert (H2 : lacks "010" (" LIBRARY_PATH=" +:+ dirs) = true) by done.
    unfold newline. rewrite (split_lacks _ _ H1), (split_lacks _ _ H2).
    cbn [foldl].
    change (Str.startswith library_path_prefix (" LIBRARY_PATH=" +:+ dirs)) with false.
    unfold library_path_prefix. rewrite startswith_app.
    change (Str.drop (String.length "LIBRARY_PATH=") ("LIBRARY_PATH=" +:+ dirs))
      with dirs.
    split; [|done]. by rewrite (left_id_L ∅ (∪)).
Qed.

Lemma parse_library_paths_exact_witness :
  parse_library_paths
    ("LIBRARY_PATH=" +:+ "/usr/lib/gcc/x86_64-linux-gnu/12/:/lib/:/usr/lib/")
  = list_to_set (split_paths "/usr/lib/gcc/x86_64-linux-gnu/12/:/lib/:/usr/lib/").
Proof.
  exact (proj1 (proj2 (proj2 (parse_library_paths_exact ""))
                  "/usr/lib/gcc/x86_64-linux-gnu/12/:/lib/:/usr/lib/" eq_refl)).
Defined.

(** ** The two probes of the preprocessor *)

(** What both probes do before they parse: find a compiler, ask it for
    its preprocessor, and run that with [-v]. [None] stands for the early
    return of the empty set. *)
Lemma compiler_probes_trace h :
  (∃ e, get_compiler_include_paths h = Raise e
        ∧ get_compiler_library_paths h = Raise e)
  ∨ (get_compiler_include_paths h = Ok ∅ ∧ get_compiler_library_paths h = Ok ∅)
  ∨ (∃ output, get_compiler_include_paths h = Ok (parse_include_paths output)
               ∧ get_compiler_library_paths h = Ok (parse_library_paths output)).
Proof.
  unfold get_compiler_include_paths, get_compiler_library_paths.
  destruct (determine_compiler h) as [[|c cc]|]; [by right; left| |by right; left].
  destruct (determine_preprocessor h (String c cc)) as [[[|d cpp]|]|e]; simpl;
    [by right; left| |by right; left|by left; eexists].
  destruct (check_output h (cpp_verbose (String d cpp))) as [output|e].
  - right; right. by exists output.
  - destruct (is_CalledProcessError e); [by right; left|by left; eexists].
Qed.

Lemma check_output_ok_inv h p out :
  check_output h p = Ok out → run h p = Exited 0 out.
Proof.
  unfold check_output. destruct (run h p) as [[| |] out'| |]; congruence.
Qed.

(** After the same compiler and preprocessor, both probes parse what
    [CPP -v] printed. *)
Lemma compiler_probes_same_trace h cc cpp output :
  determine_compiler h = Some cc →
  determine_preprocessor h cc = Ok (Some cpp) → cpp ≠ "" →
  run h (cpp_verbose cpp) = Exited 0 output →
  get_compiler_include_paths h = Ok (parse_include_paths output)
  ∧ get_compiler_library_paths h = Ok (parse_library_paths output).
Proof.
  intros Hcc Hcpp Hne Hrun.
  destruct (determine_compiler_some _ _ Hcc) as [Hne' _].
  unfold get_compiler_include_paths, get_compiler_library_paths.
  rewrite Hcc. destruct cc; [done|]. rewrite Hcpp. simpl.
  destruct cpp; [done|]. unfold check_output. by rewrite Hrun.
Qed.

Lemma compiler_probes_trace_run h :
  (∃ e, get_compiler_include_paths h = Raise e
        ∧ get_compiler_library_paths h = Raise e)
  ∨ (get_compiler_include_paths h = Ok ∅ ∧ get_compiler_library_paths h = Ok ∅)
  ∨ (∃ cc cpp output,
       determine_compiler h = Some cc
       ∧ determine_preprocessor h cc = Ok (Some cpp) ∧ cpp ≠ ""
       ∧ run h (cpp_verbose cpp) = Exited 0 output
       ∧ get_compiler_include_paths h = Ok (parse_include_paths output)
       ∧ get_compiler_library_paths h = Ok (parse_library_paths output)).
Proof.
  unfold get_compiler_include_paths, get_compiler_library_paths.
  destruct (determine_compiler h) as [[|c cc]|] eqn:Hcc;
    [by right; left| |by right; left].
  destruct (determine_preprocessor h (String c cc)) as [[[|d cpp]|]|e] eqn:Hcpp;
    simpl; [by right; left| |by right; left|by left; eexists].
  destruct (check_output h (cpp_verbose (String d cpp))) as [output|e] eqn:Hout.
  - right; right. exists (String c cc), (String d cpp), output.
    apply check_output_ok_inv in Hout. done.
  - destruct (is_CalledProcessError e); [by right; left|by left; eexists].
Qed.

(** X4: the include-path probe and the library-path probe of the
    preprocessor succeed and fail together: one raises an error exactly
    when the other raises the same error; and when the compiler names a
    preprocessor and [CPP -v] exits with code 0, both parse the text that
    this one run printed. When they return, they returned the empty set
    both, or there was such a run and both parsed its text. *)
Theorem compiler_probes_agree (h : host) :
  (∀ e, get_compiler_include_paths h = Raise e
        ↔ get_compiler_library_paths h = Raise e)
  ∧ (returns (get_compiler_include_paths h)
     ↔ returns (get_compiler_library_paths h))
  ∧ (∀ cc cpp output,
       determine_compiler h = Some cc →
       determine_preprocessor h cc = Ok (Some cpp) → cpp ≠ "" →
       run h (cpp_verbose cpp) = Exited 0 output →
       get_compiler_include_paths h = Ok (parse_include_paths output)
       ∧ get_compiler_library_paths h = Ok (parse_library_paths output))
  ∧ ((get_compiler_include_paths h = Ok ∅ ∧ get_compiler_library_paths h = Ok ∅)
     ∨ (∃ e, get_compiler_include_paths h = Raise e)
     ∨ ∃ cc cpp output,
         determine_compiler h = Some cc
         ∧ determine_preprocessor h cc = Ok (Some cpp) ∧ cpp ≠ ""
         ∧ run h (cpp_verbose cpp) = Exited 0 output
         ∧ get_compiler_include_paths h = Ok (parse_include_paths output)
         ∧ get_compiler_library_paths h = Ok (parse_library_paths output)).
Proof.
  split; [|split; [|split; [apply compiler_probes_same_trace|]]].
  - intros e'. destruct (compiler_probes_trace_run h)
      as [(e & Hi & Hl)|[[Hi Hl]|(cc & cpp & output & _ & _ & _ & _ & Hi & Hl)]];
      rewrite Hi, Hl; split; congruence.
  - destruct (compiler_probes_trace_run h)
      as [(e & Hi & Hl)|[[Hi Hl]|(cc & cpp & output & _ & _ & _ & _ & Hi & Hl)]];
      rewrite Hi, Hl; split; intros [? ?]; first [congruence | by eexists].
  - destruct (compiler_probes_trace_run h)
      as [(e & Hi & Hl)|[[Hi Hl]|(cc & cpp & output & ? & ? & ? & ? & Hi & Hl)]].
    + right; left. by exists e.
    + by left.
    + right; right. by exists cc, cpp, output.
Qed.

Lemma compiler_probes_agree_witness :
  get_compiler_library_paths ProbeHosts.tools_missing = Raise FileNotFoundError
  ∧ get_compiler_include_paths LookupHosts.installed
    = Ok (parse_include_paths TraceHosts.gcc_trace)
  ∧ get_compiler_library_paths LookupHosts.installed
    = Ok (parse_library_paths TraceHosts.gcc_trace).
Proof.
  split.
  - apply (proj1 (proj1 (compiler_probes_agree ProbeHosts.tools_missing)
                    FileNotFoundError)).
    reflexivity.
  - apply (proj1 (proj2 (proj2 (compiler_probes_agree LookupHosts.installed)))
             "/usr/bin/gcc" "cpp" TraceHosts.gcc_trace);
      [reflexivity|reflexivity|discriminate|reflexivity].
Defined.

(** ** Parsing the linker cache *)

(** X5: parsing the linker cache listing returns exactly when every
    line it takes up (trimmed, beginning with [libyogrt.so] and a space)
    has a second field after [ => ]; the result is then the set of these
    second fields. Otherwise it raises [IndexError], and it raises nothing
    else. *)
Theorem parse_ldconfig_exact (output : string) :
  ((∀ line, line ∈ Str.split newline output → ldconfig_match line = true →
      is_Some (Str.split " => " (Str.strip line) !! 1%nat))
   ↔ returns (parse_ldconfig output))
  ∧ (∀ found, parse_ldconfig output = Ok found →
       ∀ p, p ∈ found ↔
            ∃ line, line ∈ Str.split newline output ∧ ldconfig_match line = true
                    ∧ Str.split " => " (Str.strip line) !! 1%nat = Some p)
  ∧ (∀ e, parse_ldconfig output = Raise e → e = IndexError).
Proof.
  unfold parse_ldconfig. split; [split|split].
  - apply ldconfig_loop_returns.
  - intros [found Hfound] line Hin Hm.
    by apply (ldconfig_loop_ok_fields _ _ _ Hfound).
  - intros found Hfound p. rewrite (ldconfig_loop_ok _ _ _ Hfound p).
    rewrite elem_of_empty. tauto.
  - intros e He. by apply ldconfig_loop_raises in He as [-> _].
Qed.

Lemma parse_ldconfig_exact_witness :
  returns (parse_ldconfig ldconfig_listing).
Proof.
  apply (proj1 (proj1 (parse_ldconfig_exact ldconfig_listing))).
  intros line Hin Hm.
  vm_compute in Hin.
  repeat (apply elem_of_cons in Hin as [->|Hin]; [first [discriminate Hm | by eexists]|]).
  by apply elem_of_nil in Hin.
Defined.

(** ** The order of a visit *)

Lemma standardize_paths_with_iter h order order' paths resolved :
  standardize_paths (with_iter order h) paths = Ok resolved →
  standardize_paths (with_iter order' h) paths = Ok resolved.
Proof.
  intros H.
  destruct (standardize_paths_returns (with_iter order' h) paths) as [again Hagain].
  { apply (standardize_paths_ok_no_error (with_iter order h) _ _ H). }
  rewrite Hagain. f_equal. apply set_eq. intros q.
  rewrite (standardize_paths_elem _ _ _ Hagain), (standardize_paths_elem _ _ _ H).
  done.
Qed.

(** X6: whether normalization returns, and what it returns, does not
    depend on the order in which the set is visited: if it returns a set
    under one order it returns the same set under every other. (Under
    different orders a failing normalization may raise different errors:
    the one of the entry it meets first.) *)
Theorem standardize_paths_order_independent (h : host) (order order' : iteration)
    (paths : gset string) :
  (∀ resolved,
     standardize_paths (with_iter order h) paths = Ok resolved →
     standardize_paths (with_iter order' h) paths = Ok resolved)
  ∧ (raises (standardize_paths (with_iter order h) paths)
     ↔ raises (standardize_paths (with_iter order' h) paths)).
Proof.
  split; [apply standardize_paths_with_iter|].
  assert (Hone : ∀ o o', raises (standardize_paths (with_iter o h) paths) →
                         raises (standardize_paths (with_iter o' h) paths)).
  { intros o o' [e He].
    destruct (standardize_paths (with_iter o' h) paths) as [resolved|e'] eqn:E;
      [|by eexists].
    apply (standardize_paths_with_iter _ _ o) in E. congruence. }
  split; apply Hone.
Qed.

Lemma standardize_paths_order_independent_witness :
  standardize_paths (with_iter Fixture.reversed_order PathHosts.symlinks)
    {["/opt/yogrt/current"; "/usr/include"; "/usr/local/include"]}
  = Ok {["/opt/yogrt/1.35"; "/usr/include"]}.
Proof.
  apply (proj1 (standardize_paths_order_independent PathHosts.symlinks
                  Fixture.sorted_order Fixture.reversed_order _)).
  decide_by_compute.
Defined.

Lemma find_yogrt_lib_inv h found :
  find_yogrt_lib h = Ok found →
  ∃ paths resolved,
    library_paths h = Ok paths ∧ standardize_paths h paths = Ok resolved
    ∧ found ≠ ∅
    ∧ ∀ dir, dir ∈ found ↔ dir ∈ resolved ∧ holds h "libyogrt.so" dir.
Proof.
  intros H. unfold find_yogrt_lib in H.
  destruct (library_paths h) as [paths|] eqn:Hp; simpl in H; [|done].
  destruct (standardize_paths h paths) as [resolved|] eqn:Hr; simpl in H; [|done].
  exists paths, resolved. split; [done|]. split; [done|].
  apply (find_yogrt_lib_ok h paths resolved); [done..|].
  unfold find_yogrt_lib. rewrite Hp. simpl. by rewrite Hr.
Qed.

(** X7: the result of the library lookup does not depend on the order in
    which the sets are visited: once normalization of the search set
    returns, the lookup gives the same set of directories, or the same
    report that the library is missing, under every order. *)
Theorem find_yogrt_lib_order_independent (h : host) (order order' : iteration) :
  (∀ found, find_yogrt_lib (with_iter order h) = Ok found →
            find_yogrt_lib (with_iter order' h) = Ok found)
  ∧ (∀ paths resolved,
       library_paths h = Ok paths →
       standardize_paths (with_iter order h) paths = Ok resolved →
       find_yogrt_lib (with_iter order' h) = find_yogrt_lib (with_iter order h)).
Proof.
  assert (Hsame : ∀ paths resolved,
       library_paths h = Ok paths →
       standardize_paths (with_iter order h) paths = Ok resolved →
       find_yogrt_lib (with_iter order' h) = find_yogrt_lib (with_iter order h)).
  { intros paths resolved Hp Hr.
    rewrite (find_yogrt_lib_unfold (with_iter order h) paths resolved Hp Hr).
    rewrite (find_yogrt_lib_unfold (with_iter order' h) paths resolved);
      [done|done|].
    by apply (standardize_paths_with_iter h order order'). }
  split; [|done].
  intros found Hfound.
  destruct (find_yogrt_lib_inv _ _ Hfound) as (paths & resolved & Hp & Hr & _).
  by rewrite (Hsame _ _ Hp Hr).
Qed.

Lemma find_yogrt_lib_order_independent_witness :
  find_yogrt_lib (with_iter Fixture.reversed_order LookupHosts.installed)
  = Ok {["/opt/yogrt/lib"]}.
Proof.
  apply (proj1 (find_yogrt_lib_order_independent LookupHosts.installed
                  Fixture.sorted_order Fixture.reversed_order)).
  decide_by_compute.
Defined.

(** ** The compiler that is chosen *)

(** X8: what compiler resolution returns is never the empty string, and
    it is the value of [CC] or what the search path gives for [cc], [gcc]
    or [clang]; so a caller's test [if not compiler] fails exactly on
    [None]. *)
Theorem determine_compiler_nonempty (h : host) (compiler : string) :
  determine_compiler h = Some compiler →
  compiler ≠ ""
  ∧ Some compiler
      ∈ [environ h !! "CC"; which h "cc"; which h "gcc"; which h "clang"].
Proof. apply determine_compiler_some. Qed.

Lemma determine_compiler_nonempty_witness :
  "/usr/bin/gcc" ≠ ""
  ∧ Some "/usr/bin/gcc"
      ∈ [environ CompilerHosts.empty_CC !! "CC"; which CompilerHosts.empty_CC "cc";
         which CompilerHosts.empty_CC "gcc"; which CompilerHosts.empty_CC "clang"].
Proof.
  apply (determine_compiler_nonempty CompilerHosts.empty_CC). reflexivity.
Defined.

(** ** Preprocessing the header *)

(** X9: preprocessing the header is a hard step. Without a compiler it
    raises "Could not determine a compiler" and runs nothing; with one it
    runs [COMPILER -E -P HEADER] and returns the captured text on exit
    code 0, while any other exit code is raised as [CalledProcessError]
    and an error of starting the compiler is raised as it is: unlike the
    probes, nothing is caught. *)
Theorem preprocess_header_hard (h : host) (header_path : string) :
  (determine_compiler h = None →
     preprocess_header h header_path = Raise no_compiler_error)
  ∧ (∀ cc rc out,
       determine_compiler h = Some cc →
       run h (Popen [cc; "-E"; "-P"; header_path] false false) = Exited rc out →
       preprocess_header h header_path
       = if decide (rc = 0) then Ok out else Raise (CalledProcessError rc))
  ∧ (∀ cc e,
       determine_compiler h = Some cc →
       run h (Popen [cc; "-E"; "-P"; header_path] false false) = NotStarted e →
       preprocess_header h header_path = Raise e).
Proof.
  unfold preprocess_header. split; [by intros ->|]. split.
  - intros cc rc out Hcc Hrun.
    destruct (determine_compiler_some _ _ Hcc) as [Hne _].
    rewrite Hcc. destruct cc; [done|]. by apply check_output_exited.
  - intros cc e Hcc Hrun.
    destruct (determine_compiler_some _ _ Hcc) as [Hne _].
    rewrite Hcc. destruct cc; [done|]. by apply check_output_not_started.
Qed.

Lemma preprocess_header_hard_witness :
  preprocess_header ExtraHosts.no_compiler "/opt/yogrt/include/yogrt.h"
    = Raise no_compiler_error
  ∧ preprocess_header ExtraHosts.broken_header "/opt/yogrt/include/yogrt.h"
    = Raise (CalledProcessError 1)
  ∧ preprocess_header ExtraHosts.complete "/opt/yogrt/include/yogrt.h"
    = Ok ExtraHosts.yogrt_h_text.
Proof.
  split; [|split].
  - apply (proj1 (preprocess_header_hard ExtraHosts.no_compiler _)). reflexivity.
  - apply (proj1 (proj2 (preprocess_header_hard ExtraHosts.broken_header _))
             "/usr/bin/gcc" 1 ""); reflexivity.
  - apply (proj1 (proj2 (preprocess_header_hard ExtraHosts.complete _))
             "/usr/bin/gcc" 0 ExtraHosts.yogrt_h_text); reflexivity.
Defined.

(** ** The whole run *)

Lemma find_yogrt_h_inv h header_path :
  find_yogrt_h h = Ok header_path →
  ∃ paths resolved dir,
    include_paths h = Ok paths ∧ standardize_paths h paths = Ok resolved
    ∧ dir ∈ resolved ∧ header_path = os_path_join dir "yogrt.h"
    ∧ path_exists h header_path = true.
Proof.
  intros H. unfold find_yogrt_h in H.
  destruct (include_paths h) as [paths|] eqn:Hp; simpl in H; [|done].
  destruct (standardize_paths h paths) as [resolved|] eqn:Hr; simpl in H; [|done].
  apply search_header_ok in H as (dir & Hdir%elem_of_iter & -> & ?).
  by exists paths, resolved, dir.
Qed.

Lemma generate_bindings_inv h b :
  generate_bindings h = Ok b →
  ∃ yogrt_h_path found,
    find_yogrt_h h = Ok yogrt_h_path ∧ find_yogrt_lib h = Ok found
    ∧ preprocess_header h yogrt_h_path = Ok (cdef_source b)
    ∧ library_dirs b = iter h found
    ∧ runtime_library_dirs b = iter h found
    ∧ libraries b = ["yogrt"].
Proof.
  unfold generate_bindings.
  destruct (find_yogrt_h h) as [yogrt_h_path|]; simpl; [|done].
  destruct (find_yogrt_lib h) as [found|]; simpl; [|done].
  destruct (preprocess_header h yogrt_h_path) as [header|] eqn:Hpre; simpl; [|done].
  intros [= <-]. exists yogrt_h_path, found. simpl. by rewrite Hpre.
Qed.

(** X10: when the module body gets as far as [set_source], the extension
    is linked against [yogrt] with the same list as link-time and run-time
    search path; that list is not empty, has no duplicates, and each of its
    entries is an absolute, resolved directory that holds [libyogrt.so];
    and the text given to [cdef] is what the chosen compiler printed, with
    exit code 0, for a header [<dir>/yogrt.h] that exists in an absolute,
    resolved directory. *)
Theorem generate_bindings_sound (h : host) (b : bindings) :
  realpath_canonical h →
  generate_bindings h = Ok b →
  libraries b = ["yogrt"]
  ∧ runtime_library_dirs b = library_dirs b
  ∧ library_dirs b ≠ []
  ∧ NoDup (library_dirs b)
  ∧ (∀ dir, dir ∈ library_dirs b →
       is_absolute dir = true ∧ resolve h dir = Ok dir
       ∧ holds h "libyogrt.so" dir)
  ∧ ∃ dir cc,
      is_absolute dir = true ∧ resolve h dir = Ok dir
      ∧ holds h "yogrt.h" dir
      ∧ determine_compiler h = Some cc
      ∧ run h (Popen [cc; "-E"; "-P"; os_path_join dir "yogrt.h"] false false)
        = Exited 0 (cdef_source b).
Proof.
  intros Hcanon (yogrt_h_path & found & Hh & Hl & Hpre & Hdirs & Hrun & Hlibs)
    %generate_bindings_inv.
  destruct (find_yogrt_lib_inv _ _ Hl) as (paths & resolved & _ & Hr & Hne & Hfound).
  pose proof (standardize_paths_elem h _ _ Hr) as Hres.
  split; [done|]. split; [congruence|]. rewrite Hdirs.
  split; [|split; [|split]].
  - intros Hnil. apply Hne. apply set_eq. intros dir.
    rewrite <- elem_of_iter, Hnil. set_solver.
  - rewrite (iter_perm (iter h) found). apply NoDup_elements.
  - intros dir [Hdir Hholds]%elem_of_iter%Hfound.
    apply Hres in Hdir as (p & _ & Hp).
    destruct (resolve_fixed h p dir Hcanon Hp). done.
  - destruct (find_yogrt_h_inv _ _ Hh)
      as (ipaths & iresolved & dir & _ & Hir & Hdir & -> & Hex).
    apply (standardize_paths_elem h _ _ Hir) in Hdir as (p & _ & Hp).
    destruct (resolve_fixed h p dir Hcanon Hp) as [Habs Hfix].
    unfold preprocess_header in Hpre.
    destruct (determine_compiler h) as [[|c cc]|] eqn:Hcc; [done| |done].
    exists dir, (String c cc). repeat split; [done..|].
    unfold check_output in Hpre.
    destruct (run h _) as [[| |] out| |]; simpl in Hpre; congruence.
Qed.

Lemma generate_bindings_sound_witness :
  libraries ExtraHosts.bindings_of_complete = ["yogrt"]
  ∧ runtime_library_dirs ExtraHosts.bindings_of_complete
    = library_dirs ExtraHosts.bindings_of_complete
  ∧ library_dirs ExtraHosts.bindings_of_complete ≠ [].
Proof.
  destruct (generate_bindings_sound ExtraHosts.complete ExtraHosts.bindings_of_complete)
    as (H1 & H2 & H3 & _).
  - apply (fixture_realpath_canonical _ ExtraHosts.complete_fixture). reflexivity.
  - decide_by_compute.
  - split; [exact H1|]. split; [exact H2|exact H3].
Defined.

(** X11: without a compiler the module body never reaches [set_source],
    although every probe that wants a compiler fails softly: it raises,
    and when both lookups succeed the error is "Could not determine a
    compiler". *)
Theorem generate_bindings_needs_compiler (h : host) :
  determine_compiler h = None →
  raises (generate_bindings h)
  ∧ get_compiler_include_paths h = Ok ∅
  ∧ get_compiler_library_paths h = Ok ∅
  ∧ (returns (find_yogrt_h h) → returns (find_yogrt_lib h) →
     generate_bindings h = Raise no_compiler_error).
Proof.
  intros Hcc.
  assert (Hlast : returns (find_yogrt_h h) → returns (find_yogrt_lib h) →
                  generate_bindings h = Raise no_compiler_error).
  { intros [p Hp] [found Hfound]. unfold generate_bindings, preprocess_header.
    rewrite Hp. simpl. rewrite Hfound. simpl. by rewrite Hcc. }
  split; [|split; [|split; [|done]]].
  - destruct (find_yogrt_h h) as [p|e] eqn:Hp.
    + destruct (find_yogrt_lib h) as [found|e] eqn:Hfound.
      * eexists. apply Hlast; by eexists.
      * exists e. unfold generate_bindings. rewrite Hp. simpl. by rewrite Hfound.
    + exists e. unfold generate_bindings. by rewrite Hp.
  - unfold get_compiler_include_paths. by rewrite Hcc.
  - unfold get_compiler_library_paths. by rewrite Hcc.
Qed.

Lemma generate_bindings_needs_compiler_witness :
  generate_bindings ExtraHosts.no_compiler = Raise no_compiler_error.
Proof.
  apply (proj2 (proj2 (proj2
           (generate_bindings_needs_compiler ExtraHosts.no_compiler eq_refl)))).
  - exists "/opt/yogrt/include/yogrt.h". decide_by_compute.
  - exists {["/opt/yogrt/lib"]}. decide_by_compute.
Defined.

(** ** A single header *)

Lemma search_header_unique h l dir :
  dir ∈ l → holds h "yogrt.h" dir →
  (∀ d, d ∈ l → holds h "yogrt.h" d → d = dir) →
  search_header h l = Ok (os_path_join dir "yogrt.h").
Proof.
  intros Hdir Hholds Huniq.
  destruct (search_header_found h l) as (d & Hd & Hhd & ->); [by exists dir|].
  by rewrite (Huniq d Hd Hhd).
Qed.

(** X12: when exactly one directory of the normalized include set holds
    [yogrt.h], header lookup returns that directory's header path under
    every order in which the sets are visited. *)
Theorem find_yogrt_h_unique (h : host) (order order' : iteration)
    (paths resolved : gset string) (dir : string) :
  include_paths h = Ok paths →
  standardize_paths (with_iter order h) paths = Ok resolved →
  dir ∈ resolved →
  holds h "yogrt.h" dir →
  (∀ d, d ∈ resolved → holds h "yogrt.h" d → d = dir) →
  find_yogrt_h (with_iter order' h) = Ok (os_path_join dir "yogrt.h").
Proof.
  intros Hp Hr Hdir Hholds Huniq.
  rewrite (find_yogrt_h_unfold (with_iter order' h) paths resolved);
    [|done|by apply (standardize_paths_with_iter h order order')].
  apply search_header_unique.
  - by apply elem_of_iter.
  - done.
  - intros d Hd%elem_of_iter. by apply Huniq.
Qed.

Lemma find_yogrt_h_unique_witness :
  find_yogrt_h (with_iter Fixture.reversed_order LookupHosts.installed)
  = Ok (os_path_join "/opt/yogrt/include" "yogrt.h").
Proof.
  apply (find_yogrt_h_unique LookupHosts.installed Fixture.sorted_order
           Fixture.reversed_order LookupHosts.include_set LookupHosts.include_dirs).
  - decide_by_compute.
  - decide_by_compute.
  - decide_by_compute.
  - reflexivity.
  - intros d Hd Hholds. unfold LookupHosts.include_dirs in Hd.
    set_unfold in Hd. destruct Hd as [Hd|Hd]; rewrite Hd in Hholds |- *;
      first [reflexivity | discriminate Hholds].
Defined.

(** ** Trimmed text *)

Lemma string_app_nil_r s : s +:+ "" = s.
Proof.
  induction s as [|c s IH]; [done|].
  change (String c s +:+ "") with (String c (s +:+ "")). by rewrite IH.
Qed.

Lemma string_app_assoc s t u : (s +:+ t) +:+ u = s +:+ t +:+ u.
Proof.
  induction s as [|c s IH]; [done|].
  change ((String c s +:+ t) +:+ u) with (String c ((s +:+ t) +:+ u)).
  by rewrite IH.
Qed.

Lemma rev_app_append s t : String.rev_app s t = String.rev s +:+ t.
Proof.
  unfold String.rev. revert t. induction s as [|c s IH]; intros t; [done|].
  cbn [String.rev_app]. rewrite (IH (String c t)), (IH (String c "")).
  by rewrite string_app_assoc.
Qed.

Lemma rev_cons c s : String.rev (String c s) = String.rev s +:+ String c "".
Proof. unfold String.rev at 1. cbn [String.rev_app]. apply rev_app_append. Qed.

Lemma rev_append s t : String.rev (s +:+ t) = String.rev t +:+ String.rev s.
Proof.
  induction s as [|c s IH].
  - change ("" +:+ t) with t. by rewrite string_app_nil_r.
  - change (String c s +:+ t) with (String c (s +:+ t)).
    by rewrite !rev_cons, IH, string_app_assoc.
Qed.

Lemma rev_involutive s : String.rev (String.rev s) = s.
Proof.
  induction s as [|c s IH]; [done|].
  by rewrite rev_cons, rev_append, IH.
Qed.

Lemma lstrip_lstripped s : lstripped (Str.lstrip s).
Proof.
  induction s as [|c s IH]; [done|]. cbn [Str.lstrip].
  by destruct (Str.isspace c) eqn:E.
Qed.

Lemma lstrip_id s : lstripped s → Str.lstrip s = s.
Proof. destruct s as [|c s]; [done|]. cbn. by intros ->. Qed.

(** Stripping on the left removes a prefix. *)
Lemma lstrip_suffix s : ∃ ws, s = ws +:+ Str.lstrip s.
Proof.
  induction s as [|c s [ws IH]]; [by exists ""|]. cbn [Str.lstrip].
  destruct (Str.isspace c); [|by exists ""].
  exists (String c ws).
  change (String c ws +:+ Str.lstrip s) with (String c (ws +:+ Str.lstrip s)).
  by rewrite <- IH.
Qed.

(** Stripping on the right removes a suffix. *)
Lemma rstrip_prefix s : ∃ ws, s = Str.rstrip s +:+ ws.
Proof.
  unfold Str.rstrip. destruct (lstrip_suffix (String.rev s)) as [ws Hws].
  exists (String.rev ws).
  by rewrite <- rev_append, <- Hws, rev_involutive.
Qed.

Lemma rstrip_lstripped s : lstripped s → lstripped (Str.rstrip s).
Proof.
  intros Hs. destruct (rstrip_prefix s) as [ws Hws].
  destruct (Str.rstrip s) as [|c u]; [done|].
  rewrite Hws in Hs. exact Hs.
Qed.

Lemma rstrip_idem s : Str.rstrip (Str.rstrip s) = Str.rstrip s.
Proof.
  unfold Str.rstrip. rewrite rev_involutive.
  by rewrite (lstrip_id _ (lstrip_lstripped _)).
Qed.

Lemma strip_idem s : Str.strip (Str.strip s) = Str.strip s.
Proof.
  unfold Str.strip.
  rewrite (lstrip_id (Str.rstrip (Str.lstrip s))).
  - apply rstrip_idem.
  - apply rstrip_lstripped, lstrip_lstripped.
Qed.

Lemma parse_include_paths_stripped output p :
  p ∈ parse_include_paths output →
  ∃ line, line ∈ Str.split newline output ∧ p = Str.strip line.
Proof.
  unfold parse_include_paths.
  destruct (list_index search_starts _) as [i|]; [|by intros ?%elem_of_empty].
  destruct (list_index search_ends _) as [j|]; [|by intros ?%elem_of_empty].
  rewrite elem_of_union, elem_of_list_to_set, list_elem_of_fmap.
  intros [[]%elem_of_empty|(line & -> & Hline)].
  exists line. split; [|done]. unfold slice in Hline.
  by apply subseteq_take, subseteq_drop in Hline.
Qed.

(** X13: trimming is idempotent, so what the preprocessor probes hand on
    is trimmed: every include path taken from the trace is the trimmed
    text of one of its lines and is left unchanged by [strip], with no
    white space at either end; the same holds of the name of the
    preprocessor. *)
Theorem probes_return_trimmed (h : host) :
  (∀ s, Str.strip (Str.strip s) = Str.strip s)
  ∧ (∀ output p,
       p ∈ parse_include_paths output →
       Str.strip p = p ∧ lstripped p ∧ lstripped (String.rev p)
       ∧ ∃ line, line ∈ Str.split newline output ∧ p = Str.strip line)
  ∧ (∀ compiler cpp,
       determine_preprocessor h compiler = Ok (Some cpp) → Str.strip cpp = cpp).
Proof.
  split; [apply strip_idem|]. split.
  - intros output p (line & Hline & ->)%parse_include_paths_stripped.
    split; [apply strip_idem|]. split; [|split; [|by exists line]].
    + apply rstrip_lstripped, lstrip_lstripped.
    + unfold Str.strip, Str.rstrip. rewrite rev_involutive. apply lstrip_lstripped.
  - intros compiler cpp. unfold determine_preprocessor.
    destruct (check_output h _) as [out|e].
    + intros [= <-]. apply strip_idem.
    + by destruct (is_CalledProcessError e).
Qed.

Lemma probes_return_trimmed_witness :
  Str.strip "/usr/local/include" = "/usr/local/include".
Proof.
  apply (proj1 (proj2 (probes_return_trimmed CompilerHosts.bare))
           TraceHosts.gcc_trace).
  decide_by_compute.
Defined.

(** ** The wrappers *)

Lemma call_missing {S} (lib : gmap string (Yogrt.cfunction S)) name args st :
  lib !! name = None → Yogrt.call_ lib name args st = Yogrt.AttributeError name.
Proof.
  intros H. unfold Yogrt.call_, Yogrt.call, Yogrt.cfunction in *. by rewrite H.
Qed.

Lemma call_present {S} (lib : gmap string (Yogrt.cfunction S)) name f args st :
  lib !! name = Some f →
  Yogrt.call_ lib name args st
  = if forallb Yogrt.fits_int args
    then Yogrt.Returned () (f args st).2
    else Yogrt.OverflowError.
Proof.
  intros H. unfold Yogrt.call_, Yogrt.call, Yogrt.cfunction in *.
  rewrite H. destruct (forallb Yogrt.fits_int args); [|done].
  by destruct (f args st).
Qed.

(** X14: [set_interval2_start] reads the attribute [set_interval2_start]
    of the library object, without the prefix [yogrt_] that every other
    wrapper uses. On a library all of whose functions carry that prefix it
    therefore raises [AttributeError] for every argument, whether or not
    the library has [yogrt_set_interval2_start], and calls nothing; the
    sibling [set_interval2] reaches [yogrt_set_interval2] with its
    argument when that fits a C [int], and raises [OverflowError] without
    a call when it does not. *)
Theorem set_interval2_start_unreachable {S} (lib : gmap string (Yogrt.cfunction S)) :
  (∀ name, is_Some (lib !! name) → Str.startswith "yogrt_" name = true) →
  (∀ seconds st,
     Yogrt.set_interval2_start lib seconds st
     = Yogrt.AttributeError "set_interval2_start")
  ∧ (∀ f seconds st,
       lib !! "yogrt_set_interval2" = Some f →
       Yogrt.set_interval2 lib seconds st
       = if Yogrt.fits_int seconds
         then Yogrt.Returned () (f [seconds] st).2
         else Yogrt.OverflowError).
Proof.
  intros Hprefix. split.
  - intros seconds st. apply call_missing.
    destruct (lib !! "set_interval2_start") eqn:E; [|done].
    assert (Hs : is_Some (lib !! "set_interval2_start")) by (by rewrite E).
    apply Hprefix in Hs. discriminate Hs.
  - intros f seconds st Hf. unfold Yogrt.set_interval2.
    rewrite (call_present _ _ _ _ _ Hf). cbn [forallb].
    by rewrite andb_true_r.
Qed.

Lemma set_interval2_start_unreachable_witness :
  Yogrt.set_interval2_start Yogrt.libyogrt 60 (Yogrt.Timers 3600 300 30 600 0)
    = Yogrt.AttributeError "set_interval2_start"
  ∧ Yogrt.set_interval2 Yogrt.libyogrt 60 (Yogrt.Timers 3600 300 30 600 0)
    = Yogrt.Returned () (Yogrt.Timers 3600 300 60 600 0)
  ∧ Yogrt.set_interval2 Yogrt.libyogrt (2 ^ 31) (Yogrt.Timers 3600 300 30 600 0)
    = Yogrt.OverflowError.
Proof.
  assert (Hprefix : ∀ name, is_Some (Yogrt.libyogrt !! name) →
                            Str.startswith "yogrt_" name = true).
  { intros name [f Hf]. unfold Yogrt.libyogrt in Hf.
    apply elem_of_list_to_map_2 in Hf.
    repeat (apply elem_of_cons in Hf as [[= -> _]|Hf]; [reflexivity|]).
    by apply elem_of_nil in Hf. }
  destruct (set_interval2_start_unreachable Yogrt.libyogrt Hprefix) as [Hstart Hset].
  split; [apply Hstart|]. split.
  - exact (Hset _ 60 (Yogrt.Timers 3600 300 30 600 0) eq_refl).
  - exact (Hset _ (2 ^ 31) (Yogrt.Timers 3600 300 30 600 0) eq_refl).
Defined.

(** ** The environment source of library paths *)

(** X15: the environment source of library paths holds exactly the
    colon-separated segments of [YOGRT_LIBRARY_PATH] and [LIBRARY_PATH],
    of those that are set and not empty; when neither is, the source is
    empty, whatever else the environment holds. *)
Theorem get_env_library_paths_exact (h : host) :
  (∀ p, p ∈ get_env_library_paths h ↔
        ∃ name v, name ∈ ["YOGRT_LIBRARY_PATH"; "LIBRARY_PATH"]
                  ∧ environ h !! name = Some v ∧ v ≠ "" ∧ p ∈ split_paths v)
  ∧ ((∀ name, name ∈ ["YOGRT_LIBRARY_PATH"; "LIBRARY_PATH"] →
        environ h !! name = None ∨ environ h !! name = Some "") →
     get_env_library_paths h = ∅).
Proof.
  split; [apply get_env_library_paths_elem|].
  intros Hnone. apply set_eq. intros p.
  rewrite get_env_library_paths_elem, elem_of_empty. split; [|done].
  intros (name & v & Hname & Hv & Hne & _).
  destruct (Hnone _ Hname); congruence.
Qed.

Lemma get_env_library_paths_exact_witness :
  get_env_library_paths CompilerHosts.with_CC = ∅.
Proof.
  apply (proj2 (get_env_library_paths_exact CompilerHosts.with_CC)).
  intros name Hname. left.
  apply elem_of_cons in Hname as [->|Hname]; [reflexivity|].
  apply elem_of_cons in Hname as [->|Hname]; [reflexivity|].
  by apply elem_of_nil in Hname.
Defined.

(** ** The system directories *)

Lemma standardize_paths_keeps h paths resolved p q :
  standardize_paths h paths = Ok resolved →
  p ∈ paths → resolve h p = Ok q → q ∈ resolved.
Proof. intros H Hp Hq. apply (standardize_paths_elem h _ _ H). eauto. Qed.

(** X16: the fixed system directories are always searched. When the
    probes and normalization return, a header in a directory that
    [/usr/include] or [/usr/local/include] resolves to is found, whatever
    the environment says, and a library in a directory that one of the six
    system library directories resolves to is among the directories
    returned. *)
Theorem system_dirs_always_searched (h : host) (p dir : string) :
  resolve h p = Ok dir →
  (p ∈ system_include_dirs → holds h "yogrt.h" dir →
   ∀ paths resolved,
     include_paths h = Ok paths → standardize_paths h paths = Ok resolved →
     p ∈ paths ∧ dir ∈ resolved ∧ returns (find_yogrt_h h))
  ∧ (p ∈ system_library_dirs → holds h "libyogrt.so" dir →
     ∀ paths resolved,
       library_paths h = Ok paths → standardize_paths h paths = Ok resolved →
       p ∈ paths ∧ ∃ found, find_yogrt_lib h = Ok found ∧ dir ∈ found).
Proof.
  intros Hres. split.
  - intros Hp Hholds paths resolved Hpaths Hresolved.
    destruct (include_paths_elem _ _ Hpaths) as (C & _ & Helem).
    assert (Hin : p ∈ paths) by (apply Helem; auto).
    assert (Hdir : dir ∈ resolved) by (by eapply standardize_paths_keeps).
    split; [done|]. split; [done|].
    rewrite (find_yogrt_h_unfold h _ _ Hpaths Hresolved).
    destruct (search_header_found h (iter h resolved)) as (d & _ & _ & ->).
    + exists dir. by rewrite elem_of_iter.
    + by eexists.
  - intros Hp Hholds paths resolved Hpaths Hresolved.
    destruct (library_paths_elem _ _ Hpaths) as (C & L & _ & _ & Helem).
    assert (Hin : p ∈ paths) by (apply Helem; auto).
    assert (Hdir : dir ∈ resolved) by (by eapply standardize_paths_keeps).
    split; [done|].
    assert (Hf : dir ∈ filter (holds h "libyogrt.so") resolved).
    { by apply elem_of_filter. }
    rewrite (find_yogrt_lib_unfold h _ _ Hpaths Hresolved).
    rewrite decide_False; [by eexists|]. set_solver.
Qed.

Lemma system_dirs_always_searched_witness :
  "/lib" ∈ system_library_dirs
  ∧ ∃ found, find_yogrt_lib ExtraHosts.system_only = Ok found ∧ "/usr/lib" ∈ found.
Proof.
  assert (Hsys : "/lib" ∈ system_library_dirs) by decide_by_compute.
  apply (proj2 (system_dirs_always_searched ExtraHosts.system_only "/lib" "/usr/lib"
                  eq_refl)
           Hsys eq_refl system_library_dirs {["/usr/lib"]}).
  - decide_by_compute.
  - decide_by_compute.
Defined.

(** ** Errors of the probes in the lookups *)

(** X17: the lookups catch nothing: an error of a probe or of
    normalization is the error of the lookup. So a missing [ldconfig]
    makes the library lookup raise the error of the failed start, once the
    preprocessor probe has returned, whatever the environment names and
    the file system holds; and an error of the preprocessor probe is the
    error of both lookups. *)
Theorem probe_errors_abort_lookups (h : host) :
  (∀ e, get_compiler_include_paths h = Raise e →
        find_yogrt_h h = Raise e ∧ find_yogrt_lib h = Raise e)
  ∧ (∀ e, returns (get_compiler_library_paths h) →
          get_ldconfig_library_paths h = Raise e → find_yogrt_lib h = Raise e)
  ∧ (∀ e, returns (get_compiler_library_paths h) →
          run h ldconfig_p = NotStarted e → is_CalledProcessError e = false →
          find_yogrt_lib h = Raise e)
  ∧ (∀ paths e, include_paths h = Ok paths →
          standardize_paths h paths = Raise e → find_yogrt_h h = Raise e).
Proof.
  assert (Hld : ∀ e, returns (get_compiler_library_paths h) →
          get_ldconfig_library_paths h = Raise e → find_yogrt_lib h = Raise e).
  { intros e [C HC] He. unfold find_yogrt_lib, library_paths.
    rewrite HC. simpl. by rewrite He. }
  split; [|split; [done|split]].
  - intros e He. split.
    + unfold find_yogrt_h, include_paths. by rewrite He.
    + destruct (compiler_probes_trace h)
        as [(e' & Hi & Hl)|[[Hi _]|(output & Hi & _)]]; [|congruence..].
      assert (e' = e) as -> by congruence.
      unfold find_yogrt_lib, library_paths. by rewrite Hl.
  - intros e HC Hrun He. apply Hld; [done|].
    unfold get_ldconfig_library_paths.
    rewrite (check_output_not_started _ _ _ Hrun). by rewrite He.
  - intros paths e Hp He. unfold find_yogrt_h. rewrite Hp. simpl. by rewrite He.
Qed.

Lemma probe_errors_abort_lookups_witness :
  find_yogrt_lib ExtraHosts.no_ldconfig = Raise FileNotFoundError.
Proof.
  apply (proj1 (proj2 (proj2 (probe_errors_abort_lookups ExtraHosts.no_ldconfig)))).
  - exists ∅. reflexivity.
  - reflexivity.
  - reflexivity.
Defined.
